(** * Document comparison service: the comparison core

    A shallow embedding of
    [src/backend/services/document_comparison_service.py]
    (class [DocumentComparisonService]): the word-overlap similarity, the
    sentence segmentation, the summary template and [compare_documents].

    Modelling conventions.
    - A Python [str] is a [string] whose characters are code points; the
      model covers the code points U+0000..U+00FF, on which [str.lower],
      [str.split] and [str.strip] act character by character.
    - A Python [int] is a [Z]; [len] results are injected with [Z.of_nat].
    - A Python [float] is modelled by the rational number it denotes ([Q]);
      [a / b] on two ints is the exact quotient.  Rounding to binary64 is
      not modelled.
    - A [set] of strings is a [gset string], a [dict] with string keys a
      [gmap string _]; [list(s)] of a set is [elements s], one enumeration
      among the orders Python may choose. *)

From Stdlib Require Import Ascii QArith.
From stdpp Require Import gmap strings list pretty.

Local Open Scope Z_scope.

(** ** Characters *)

Module Char.

Definition code (c : ascii) : N := Ascii.N_of_ascii c.

(** [str.isspace] on U+0000..U+00FF: TAB..CR, FS..US, SPACE, NEL, NBSP. *)
Definition isspace (c : ascii) : bool :=
  let n := code c in
  ((9 <=? n) && (n <=? 13) || (28 <=? n) && (n <=? 32)
   || (n =? 133) || (n =? 160))%N.

(** Simple lower-case mapping on U+0000..U+00FF: A..Z and the Latin-1
    capitals U+00C0..U+00DE except the multiplication sign U+00D7. *)
Definition lower (c : ascii) : ascii :=
  let n := code c in
  if ((65 <=? n) && (n <=? 90)
      || (192 <=? n) && (n <=? 222) && negb (n =? 215))%N
  then Ascii.ascii_of_N (n + 32) else c.

(** The character class [[.!?]] of the sentence pattern. *)
Definition is_boundary (c : ascii) : bool :=
  let n := code c in ((n =? 46) || (n =? 33) || (n =? 63))%N.

End Char.

(** ** String builtins *)

Module Str.

Definition snoc (s : string) (c : ascii) : string := s +:+ String c "".

(** Truthiness of a [str]: non-empty. *)
Definition nonempty (s : string) : bool :=
  match s with "" => false | String _ _ => true end.

(** [s.lower()] *)
Fixpoint lower (s : string) : string :=
  match s with
  | "" => ""
  | String c r => String (Char.lower c) (lower r)
  end.

(** The word under construction is closed: nothing is produced for an
    empty one. *)
Definition flush (cur : string) : list string :=
  if nonempty cur then [cur] else [].

(** [s.split()] with no separator: a left-to-right scan, [cur] being the
    characters of the current word read so far. *)
Fixpoint split_go (cur : string) (s : string) : list string :=
  match s with
  | "" => flush cur
  | String c r =>
      if Char.isspace c then flush cur ++ split_go "" r
      else split_go (snoc cur c) r
  end.

Definition split (s : string) : list string := split_go "" s.

(** [s.lstrip()], [s.rstrip()], [s.strip()] with no argument. *)
Fixpoint lstrip (s : string) : string :=
  match s with
  | "" => ""
  | String c r => if Char.isspace c then lstrip r else s
  end.

Fixpoint rstrip (s : string) : string :=
  match s with
  | "" => ""
  | String c r =>
      match rstrip r with
      | "" => if Char.isspace c then "" else String c ""
      | r' => String c r'
      end
  end.

Definition strip (s : string) : string := rstrip (lstrip s).

(** [re.split(r'[.!?]+', s)]: [cur] is the piece read so far and [in_run]
    tells that the previous character belonged to a match, which the
    greedy [+] extends as far as boundary characters follow. *)
Fixpoint re_split_go (cur : string) (in_run : bool) (s : string)
  : list string :=
  match s with
  | "" => [cur]
  | String c r =>
      if Char.is_boundary c then
        if in_run then re_split_go "" true r
        else cur :: re_split_go "" true r
      else re_split_go (snoc cur c) false r
  end.

Definition re_split (s : string) : list string := re_split_go "" false s.

(** [" ".join(parts)] *)
Fixpoint join (sep : string) (parts : list string) : string :=
  match parts with
  | [] => ""
  | [p] => p
  | p :: rest => p +:+ sep +:+ join sep rest
  end.

End Str.

(** ** Values, exceptions and results *)

(** The values an analysis result may hold under a key; numbers are
    ints. *)
#[warnings="-register-all"]
Inductive pyval : Type :=
  | PNone
  | PInt (n : Z)
  | PStr (s : string)
  | PList (l : list pyval)
  | PDict (m : gmap string pyval).

(** What an interpreter-raised error is about; each is an instance of a
    subclass of [Exception] ([AttributeError], [TypeError],
    [ZeroDivisionError]). *)
Inductive builtin_error : Type :=
  | NoAttribute (v : pyval) (attr : string)
  | NotTextLike (v : pyval)
  | BadOperands (op : string) (a b : pyval)
  | NoLen (v : pyval)
  | ZeroDivision.

Inductive exc : Type :=
  | Builtin (b : builtin_error)
  | Exception (msg : string).

Inductive result (A : Type) : Type :=
  | Ok (a : A)
  | Raise (e : exc).
Arguments Ok {A} a.
Arguments Raise {A} e.

(** Sequencing: an exception raised by [m] skips the continuation. *)
Definition bind {A B : Type} (m : result A) (k : A → result B) : result B :=
  match m with
  | Ok a => k a
  | Raise e => Raise e
  end.

Notation "'let*' x ':=' m 'in' k" := (bind m (λ x, k))
  (at level 10, x name, m at level 100, k at level 200,
   format "'[v' 'let*'  x  ':='  m  'in' '/' k ']'").

(** Truth value testing ([not v], [if v]). *)
Definition truthy (v : pyval) : bool :=
  match v with
  | PNone => false
  | PInt n => negb (n =? 0)
  | PStr s => Str.nonempty s
  | PList l => negb (bool_decide (length l = 0%nat))
  | PDict m => negb (bool_decide (size m = 0%nat))
  end.

(** [d.get(key, default)] *)
Definition dict_get {V} (d : gmap string V) (key : string) (default : V) : V :=
  match d !! key with Some v => v | None => default end.

(** [v.lower()]: only a [str] has the attribute. *)
Definition py_lower (v : pyval) : result string :=
  match v with
  | PStr s => Ok (Str.lower s)
  | _ => Raise (Builtin (NoAttribute v "lower"))
  end.

(** [re.split(pattern, v)] wants a string. *)
Definition py_re_split (v : pyval) : result (list string) :=
  match v with
  | PStr s => Ok (Str.re_split s)
  | _ => Raise (Builtin (NotTextLike v))
  end.

(** [len(v)] *)
Definition py_len (v : pyval) : result Z :=
  match v with
  | PStr s => Ok (Z.of_nat (String.length s))
  | PList l => Ok (Z.of_nat (length l))
  | PDict m => Ok (Z.of_nat (size m))
  | _ => Raise (Builtin (NoLen v))
  end.

(** The operands of [a - b], which must both be ints. *)
Definition int_operands (op : string) (a b : pyval) : result (Z * Z) :=
  match a, b with
  | PInt x, PInt y => Ok (x, y)
  | _, _ => Raise (Builtin (BadOperands op a b))
  end.

(** [a / b] on ints. *)
Definition py_truediv (a b : Z) : result Q :=
  if b =? 0 then Raise (Builtin ZeroDivision)
  else Ok (inject_Z a / inject_Z b)%Q.

(** [len(s)] of a set. *)
Definition set_len (s : gset string) : Z := Z.of_nat (size s).

(** ** The service *)

(** The report returned by [compare_documents]; the dict literals of the
    source with fixed keys are records, [structure_comparison] stays a dict
    because [_generate_comparison_summary] reads it with [get]. *)
Record doc_stats : Type := {
  filename : pyval;
  page_count : Z;
  table_count : Z;
  content_length : Z
}.

Record differences : Type := {
  added_content : list string;
  removed_content : list string;
  common_content_count : Z;
  total_added : Z;
  total_removed : Z
}.

Record report : Type := {
  document1 : doc_stats;
  document2 : doc_stats;
  similarity_score : Q;
  diffs : differences;
  structure_comparison : gmap string Z;
  summary : string
}.

Definition _calculate_text_similarity (text1 text2 : pyval) : result Q :=
  if negb (truthy text1) && negb (truthy text2) then Ok 1%Q
  else if negb (truthy text1) || negb (truthy text2) then Ok 0%Q
  else
    let* lowered1 := py_lower text1 in
    let words1 : gset string := list_to_set (Str.split lowered1) in
    let* lowered2 := py_lower text2 in
    let words2 : gset string := list_to_set (Str.split lowered2) in
    let intersection := words1 ∩ words2 in
    let union := words1 ∪ words2 in
    if set_len union =? 0 then Ok 1%Q
    else py_truediv (set_len intersection) (set_len union).

Definition _split_into_sentences (text : pyval) : result (list string) :=
  let* sentences := py_re_split text in
  Ok (Str.strip <$> filter (λ s, Str.nonempty (Str.strip s) = true) sentences).

(** [x > y] on floats. *)
Definition Qgtb (x y : Q) : bool := negb (Qle_bool x y).

Section Service.

(** The text of [round(similarity_score * 100, 1)] as the f-string prints
    it: float rounding and printing are left open. *)
Variable render_percent : Q → string.

(** [str(e)] of an interpreter-raised error: the wording is the
    interpreter's, not the service's. *)
Variable message_of : builtin_error → string.

Definition str_exc (e : exc) : string :=
  match e with
  | Builtin b => message_of b
  | Exception msg => msg
  end.

Definition _generate_comparison_summary (similarity_score : Q)
    (added_count removed_count : Z) (structure_diff : gmap string Z)
  : string :=
  let similarity_percent := render_percent similarity_score in
  let summary_parts :=
    ["The documents are " +:+ similarity_percent
       +:+ "% similar in content."] in
  let summary_parts :=
    if 0 <? added_count then
      summary_parts ++ ["Document 2 contains " +:+ pretty added_count
        +:+ " additional sentence(s) not found in Document 1."]
    else summary_parts in
  let summary_parts :=
    if 0 <? removed_count then
      summary_parts ++ ["Document 2 is missing " +:+ pretty removed_count
        +:+ " sentence(s) that are present in Document 1."]
    else summary_parts in
  let page_diff := dict_get structure_diff "page_count_diff" 0 in
  let summary_parts :=
    if 0 <? page_diff then
      summary_parts ++ ["Document 2 has " +:+ pretty page_diff
        +:+ " more page(s) than Document 1."]
    else if page_diff <? 0 then
      summary_parts ++ ["Document 2 has " +:+ pretty (Z.abs page_diff)
        +:+ " fewer page(s) than Document 1."]
    else summary_parts in
  let table_diff := dict_get structure_diff "table_count_diff" 0 in
  let summary_parts :=
    if 0 <? table_diff then
      summary_parts ++ ["Document 2 has " +:+ pretty table_diff
        +:+ " more table(s) than Document 1."]
    else if table_diff <? 0 then
      summary_parts ++ ["Document 2 has " +:+ pretty (Z.abs table_diff)
        +:+ " fewer table(s) than Document 1."]
    else summary_parts in
  let summary_parts :=
    if Qgtb similarity_score (8 # 10) then
      summary_parts ++ ["The documents are very similar."]
    else if Qgtb similarity_score (5 # 10) then
      summary_parts ++ ["The documents have moderate similarity."]
    else
      summary_parts ++ ["The documents are quite different."] in
  Str.join " " summary_parts.

(** The body of the [try] block of [compare_documents].  A lookup or a
    [len] that the source evaluates again later gives the same value and is
    bound once, at its first evaluation; the page counts that survive the
    subtraction are ints. *)
Definition compare_documents_body
    (doc1_analysis doc2_analysis : gmap string pyval) : result report :=
  let doc1_content := dict_get doc1_analysis "content" (PStr "") in
  let doc2_content := dict_get doc2_analysis "content" (PStr "") in
  let* similarity_score :=
    _calculate_text_similarity doc1_content doc2_content in
  let* doc1_sentences := _split_into_sentences doc1_content in
  let* doc2_sentences := _split_into_sentences doc2_content in
  let doc1_sentence_set : gset string := list_to_set doc1_sentences in
  let doc2_sentence_set : gset string := list_to_set doc2_sentences in
  let added_sentences := elements (doc2_sentence_set ∖ doc1_sentence_set) in
  let removed_sentences := elements (doc1_sentence_set ∖ doc2_sentence_set) in
  let common_sentences := elements (doc1_sentence_set ∩ doc2_sentence_set) in
  let* pages :=
    int_operands "-" (dict_get doc2_analysis "page_count" (PInt 0))
                     (dict_get doc1_analysis "page_count" (PInt 0)) in
  let '(doc2_pages, doc1_pages) := pages in
  let* doc2_tables := py_len (dict_get doc2_analysis "tables" (PList [])) in
  let* doc1_tables := py_len (dict_get doc1_analysis "tables" (PList [])) in
  let* doc1_length := py_len doc1_content in
  let* doc2_length := py_len doc2_content in
  let structure_comparison : gmap string Z :=
    <["doc2_tables" := doc2_tables]> (
    <["doc1_tables" := doc1_tables]> (
    <["doc2_pages" := doc2_pages]> (
    <["doc1_pages" := doc1_pages]> (
    <["table_count_diff" := doc2_tables - doc1_tables]> (
    <["page_count_diff" := doc2_pages - doc1_pages]> ∅))))) in
  Ok {|
    document1 := {|
      filename := dict_get doc1_analysis "filename" (PStr "Document 1");
      page_count := doc1_pages;
      table_count := doc1_tables;
      content_length := doc1_length |};
    document2 := {|
      filename := dict_get doc2_analysis "filename" (PStr "Document 2");
      page_count := doc2_pages;
      table_count := doc2_tables;
      content_length := doc2_length |};
    similarity_score := similarity_score;
    diffs := {|
      added_content := take 10 added_sentences;
      removed_content := take 10 removed_sentences;
      common_content_count := Z.of_nat (length common_sentences);
      total_added := Z.of_nat (length added_sentences);
      total_removed := Z.of_nat (length removed_sentences) |};
    structure_comparison := structure_comparison;
    summary :=
      _generate_comparison_summary similarity_score
        (Z.of_nat (length added_sentences))
        (Z.of_nat (length removed_sentences))
        structure_comparison
  |}.

(** What a call leaves behind: the records handed to [logger.error] and
    either the returned report or the raised exception. *)
Definition compare_documents
    (doc1_analysis doc2_analysis : gmap string pyval)
  : list string * result report :=
  match compare_documents_body doc1_analysis doc2_analysis with
  | Ok r => ([], Ok r)
  | Raise e =>
      (["Error comparing documents: " +:+ str_exc e],
       Raise (Exception ("Failed to compare documents: " +:+ str_exc e)))
  end.

End Service.

(** * Properties *)

(** ** Strings as character sequences *)

Abbreviation chars := String.list_ascii_of_string.

Lemma chars_app (a b : string) : chars (a +:+ b) = chars a ++ chars b.
Proof.
  induction a as [|c a IH]; [done|].
  change (String c a +:+ b) with (String c (a +:+ b)).
  simpl. by rewrite IH.
Qed.

Lemma chars_inj (a b : string) : chars a = chars b → a = b.
Proof.
  intros H. rewrite <- (String.string_of_list_ascii_of_string a),
    <- (String.string_of_list_ascii_of_string b). by rewrite H.
Qed.

Lemma str_app_cons (c : ascii) (a b : string) :
  String c a +:+ b = String c (a +:+ b).
Proof. done. Qed.

Lemma str_app_nil_r (a : string) : a +:+ "" = a.
Proof. apply chars_inj. by rewrite chars_app, app_nil_r. Qed.

Lemma str_app_assoc (a b c : string) : (a +:+ b) +:+ c = a +:+ b +:+ c.
Proof. apply chars_inj. by rewrite !chars_app, app_assoc. Qed.

Lemma snoc_app (cur : string) (c : ascii) (r : string) :
  Str.snoc cur c +:+ r = cur +:+ String c r.
Proof. unfold Str.snoc. by rewrite str_app_assoc. Qed.

Lemma nonempty_true (s : string) : Str.nonempty s = true ↔ s ≠ "".
Proof. destruct s; cbn; split; congruence. Qed.

(** A string all of whose characters satisfy, or none of whose characters
    satisfies, a test. *)
Definition all_chars (p : ascii → bool) (s : string) : Prop :=
  Forall (λ c, p c = true) (chars s).
Definition no_char (p : ascii → bool) (s : string) : Prop :=
  Forall (λ c, p c = false) (chars s).
(** The first (last) character, when there is one, fails the test. *)
Definition head_not (p : ascii → bool) (s : string) : Prop :=
  ∀ c, head (chars s) = Some c → p c = false.
Definition last_not (p : ascii → bool) (s : string) : Prop :=
  ∀ c, last (chars s) = Some c → p c = false.

(** ** [re.split] cuts at maximal runs *)

Lemma re_split_go_piece (p : string) : ∀ cur s,
  no_char Char.is_boundary p →
  Str.re_split_go cur false (p +:+ s) = Str.re_split_go (cur +:+ p) false s.
Proof.
  induction p as [|c p IH]; intros cur s Hp.
  - by rewrite str_app_nil_r.
  - apply Forall_cons in Hp as [Hc Hp]. rewrite str_app_cons. cbn.
    rewrite Hc, IH by done. by rewrite snoc_app.
Qed.

Lemma re_split_go_run (run : string) : ∀ s,
  all_chars Char.is_boundary run →
  Str.re_split_go "" true (run +:+ s) = Str.re_split_go "" true s.
Proof.
  induction run as [|c run IH]; intros s Hrun; [done|].
  apply Forall_cons in Hrun as [Hc Hrun]. rewrite str_app_cons. cbn.
  rewrite Hc. by apply IH.
Qed.

Lemma re_split_go_run_end (s : string) :
  head_not Char.is_boundary s →
  Str.re_split_go "" true s = Str.re_split_go "" false s.
Proof.
  destruct s as [|c r]; [done|]. intros H. cbn.
  by rewrite (H c eq_refl).
Qed.

Lemma re_split_no_boundary (p : string) :
  no_char Char.is_boundary p → Str.re_split p = [p].
Proof.
  intros Hp. unfold Str.re_split.
  rewrite <- (str_app_nil_r p) at 1. by rewrite re_split_go_piece.
Qed.

Lemma re_split_at_run (p run rest : string) :
  no_char Char.is_boundary p →
  run ≠ "" → all_chars Char.is_boundary run →
  head_not Char.is_boundary rest →
  Str.re_split (p +:+ run +:+ rest) = p :: Str.re_split rest.
Proof.
  intros Hp Hne Hrun Hrest. unfold Str.re_split.
  rewrite re_split_go_piece by done. cbn.
  destruct run as [|c run]; [done|].
  apply Forall_cons in Hrun as [Hc Hrun]. rewrite str_app_cons. cbn.
  rewrite Hc, re_split_go_run by done. by rewrite re_split_go_run_end.
Qed.

(** ** [strip] trims *)

Lemma lstrip_decomp (s : string) :
  ∃ l, s = l +:+ Str.lstrip s ∧ all_chars Char.isspace l.
Proof.
  induction s as [|c r [l [Heq Hl]]].
  - exists "". split; [done|constructor].
  - cbn. destruct (Char.isspace c) eqn:Hc.
    + exists (String c l). split.
      * rewrite str_app_cons. by f_equal.
      * by constructor.
    + exists "". split; [done|constructor].
Qed.

Lemma lstrip_head (s : string) : head_not Char.isspace (Str.lstrip s).
Proof.
  induction s as [|c r IH]; [by intros ?|].
  cbn. destruct (Char.isspace c) eqn:Hc; [done|].
  intros c' [= <-]. done.
Qed.

Lemma rstrip_decomp (s : string) :
  ∃ t, s = Str.rstrip s +:+ t ∧ all_chars Char.isspace t.
Proof.
  induction s as [|c r [t [Heq Ht]]].
  - exists "". split; [done|constructor].
  - cbn. destruct (Str.rstrip r) as [|c' r'] eqn:Hr.
    + change (r = t) in Heq. subst t.
      destruct (Char.isspace c) eqn:Hc.
      * exists (String c r). split; [done|]. by constructor.
      * exists r. done.
    + exists t. split; [|done]. rewrite str_app_cons. by f_equal.
Qed.

Lemma rstrip_last (s : string) : last_not Char.isspace (Str.rstrip s).
Proof.
  induction s as [|c r IH]; [by intros ?|].
  cbn. destruct (Str.rstrip r) as [|c' r'] eqn:Hr.
  - destruct (Char.isspace c) eqn:Hc; [by intros ?|].
    intros ? [= <-]. done.
  - intros x Hx. apply IH. exact Hx.
Qed.

Lemma rstrip_head (s : string) :
  head_not Char.isspace s → head_not Char.isspace (Str.rstrip s).
Proof.
  destruct s as [|c r]; [done|]. intros H. cbn.
  destruct (Str.rstrip r); [|exact H].
  rewrite (H c eq_refl). exact H.
Qed.

Lemma lstrip_chars (P : ascii → Prop) (s : string) :
  Forall P (chars s) → Forall P (chars (Str.lstrip s)).
Proof.
  destruct (lstrip_decomp s) as [l [Heq _]]. rewrite Heq at 1.
  rewrite chars_app. by intros [_ ?]%Forall_app.
Qed.

Lemma rstrip_chars (P : ascii → Prop) (s : string) :
  Forall P (chars s) → Forall P (chars (Str.rstrip s)).
Proof.
  destruct (rstrip_decomp s) as [t [Heq _]]. rewrite Heq at 1.
  rewrite chars_app. by intros [? _]%Forall_app.
Qed.

(** [strip] removes a whitespace prefix and a whitespace suffix, and what
    is left neither starts nor ends with whitespace. *)
Lemma strip_trims (s : string) :
  (∃ l t, s = l +:+ Str.strip s +:+ t
          ∧ all_chars Char.isspace l ∧ all_chars Char.isspace t)
  ∧ head_not Char.isspace (Str.strip s)
  ∧ last_not Char.isspace (Str.strip s).
Proof.
  unfold Str.strip. split; [|split].
  - destruct (lstrip_decomp s) as [l [Hl ?]].
    destruct (rstrip_decomp (Str.lstrip s)) as [t [Ht ?]].
    exists l, t. by rewrite <- Ht.
  - apply rstrip_head, lstrip_head.
  - apply rstrip_last.
Qed.

Lemma strip_chars (P : ascii → Prop) (s : string) :
  Forall P (chars s) → Forall P (chars (Str.strip s)).
Proof. intros. by apply rstrip_chars, lstrip_chars. Qed.

(** The pieces returned by [re.split] hold no boundary character. *)
Lemma re_split_go_pieces (s : string) : ∀ cur in_run,
  no_char Char.is_boundary cur →
  Forall (no_char Char.is_boundary) (Str.re_split_go cur in_run s).
Proof.
  induction s as [|c r IH]; intros cur in_run Hcur; cbn.
  - by constructor.
  - destruct (Char.is_boundary c) eqn:Hc.
    + destruct in_run.
      * apply IH. constructor.
      * constructor; [done|]. apply IH. constructor.
    + apply IH. unfold no_char, Str.snoc. rewrite chars_app.
      apply Forall_app. split; [done|]. by repeat constructor.
Qed.

Lemma re_split_pieces (s : string) :
  Forall (no_char Char.is_boundary) (Str.re_split s).
Proof. apply re_split_go_pieces. constructor. Qed.

(** ** Sentence segmentation *)

(** What becomes of one fragment: it is trimmed, and dropped when nothing
    is left. *)
Definition kept (fragment : string) : list string :=
  if Str.nonempty (Str.strip fragment) then [Str.strip fragment] else [].

Lemma strip_filter_kept (fragments : list string) :
  Str.strip <$> filter (λ s, Str.nonempty (Str.strip s) = true) fragments
  = fragments ≫= kept.
Proof.
  induction fragments as [|f fs IH]; [done|].
  rewrite filter_cons. cbn. unfold kept at 1.
  destruct (Str.nonempty (Str.strip f)) eqn:Hf.
  - rewrite decide_True by done. cbn. by rewrite IH.
  - rewrite decide_False by congruence. by rewrite IH.
Qed.

Lemma split_into_sentences_str (text : string) :
  _split_into_sentences (PStr text) = Ok (Str.re_split text ≫= kept).
Proof. unfold _split_into_sentences. cbn. by rewrite strip_filter_kept. Qed.

(** A sentence as the segmentation returns it. *)
Record clean_sentence (s : string) : Prop := {
  clean_nonempty : s ≠ "";
  clean_head : head_not Char.isspace s;
  clean_last : last_not Char.isspace s;
  clean_no_boundary : no_char Char.is_boundary s
}.

Lemma kept_clean (fragment : string) :
  no_char Char.is_boundary fragment → Forall clean_sentence (kept fragment).
Proof.
  intros Hf. unfold kept.
  destruct (Str.nonempty (Str.strip fragment)) eqn:Hne; [|constructor].
  repeat constructor.
  - by apply nonempty_true.
  - apply strip_trims.
  - apply strip_trims.
  - by apply strip_chars.
Qed.

(** C10: every element of the list returned by [_split_into_sentences] on a
    string is non-empty, neither starts nor ends with a whitespace
    character, and contains none of the characters [.], [!], [?]. *)
Theorem split_into_sentences_clean (text : string) :
  ∃ sentences,
    _split_into_sentences (PStr text) = Ok sentences
    ∧ Forall clean_sentence sentences.
Proof.
  eexists. split; [apply split_into_sentences_str|].
  apply Forall_bind. eapply Forall_impl; [apply re_split_pieces|].
  intros f Hf. by apply kept_clean.
Qed.

(** C3: [_split_into_sentences] cuts the text at each maximal run of [.],
    [!], [?] (a whole run is one boundary), trims each fragment as
    [strip_trims] describes, drops the fragments that are empty once
    trimmed and keeps the order of appearance: a text without boundary
    character is one fragment, and a text [p ++ run ++ rest] whose first
    maximal run is [run] yields what is kept of [p] followed by the
    sentences of [rest]; the three sample texts give the stated lists. *)
Theorem split_into_sentences_spec :
  (∀ p, no_char Char.is_boundary p →
     _split_into_sentences (PStr p) = Ok (kept p))
  ∧ (∀ p run rest,
       no_char Char.is_boundary p →
       run ≠ "" → all_chars Char.is_boundary run →
       head_not Char.is_boundary rest →
       ∃ sentences,
         _split_into_sentences (PStr rest) = Ok sentences
         ∧ _split_into_sentences (PStr (p +:+ run +:+ rest))
           = Ok (kept p ++ sentences))
  ∧ (∀ fragment,
       (∃ l t, fragment = l +:+ Str.strip fragment +:+ t
               ∧ all_chars Char.isspace l ∧ all_chars Char.isspace t)
       ∧ head_not Char.isspace (Str.strip fragment)
       ∧ last_not Char.isspace (Str.strip fragment))
  ∧ _split_into_sentences (PStr "Hello. World! How are you?")
    = Ok ["Hello"; "World"; "How are you"]
  ∧ _split_into_sentences (PStr "") = Ok []
  ∧ _split_into_sentences (PStr "...") = Ok [].
Proof.
  split; [|split; [|split; [|by vm_compute]]].
  - intros p Hp. rewrite split_into_sentences_str, re_split_no_boundary by done.
    cbn. by rewrite app_nil_r.
  - intros p run rest Hp Hne Hrun Hrest. eexists.
    split; [apply split_into_sentences_str|].
    by rewrite split_into_sentences_str, re_split_at_run.
  - apply strip_trims.
Qed.

(** ** [split] yields the maximal runs of non-whitespace *)

Lemma flush_nonempty (w : string) : w ≠ "" → Str.flush w = [w].
Proof. unfold Str.flush. by intros ->%nonempty_true. Qed.

Lemma split_go_word (w : string) : ∀ cur s,
  no_char Char.isspace w →
  Str.split_go cur (w +:+ s) = Str.split_go (cur +:+ w) s.
Proof.
  induction w as [|c w IH]; intros cur s Hw.
  - by rewrite str_app_nil_r.
  - apply Forall_cons in Hw as [Hc Hw]. rewrite str_app_cons. cbn.
    rewrite Hc, IH by done. by rewrite snoc_app.
Qed.

Lemma split_leading_space (ws s : string) :
  all_chars Char.isspace ws → Str.split (ws +:+ s) = Str.split s.
Proof.
  unfold Str.split. induction ws as [|c ws IH]; [done|].
  intros [Hc Hws]%Forall_cons. rewrite str_app_cons. cbn.
  rewrite Hc. by apply IH.
Qed.

Lemma split_word_end (w : string) :
  w ≠ "" → no_char Char.isspace w → Str.split w = [w].
Proof.
  intros Hne Hw. unfold Str.split.
  rewrite <- (str_app_nil_r w) at 1. rewrite split_go_word by done.
  cbn. by apply flush_nonempty.
Qed.

Lemma split_word_space (w : string) (c : ascii) (rest : string) :
  w ≠ "" → no_char Char.isspace w → Char.isspace c = true →
  Str.split (w +:+ String c rest) = w :: Str.split rest.
Proof.
  intros Hne Hw Hc. unfold Str.split.
  rewrite split_go_word by done. cbn. rewrite Hc.
  by rewrite flush_nonempty.
Qed.

(** ** Word-overlap similarity *)

(** The set of lower-cased, whitespace-split tokens of a text. *)
Definition tokens (text : string) : gset string :=
  list_to_set (Str.split (Str.lower text)).

(** The Jaccard index of two sets: |A ∩ B| / |A ∪ B|. *)
Definition jaccard (A B : gset string) : Q :=
  (inject_Z (Z.of_nat (size (A ∩ B)))
   / inject_Z (Z.of_nat (size (A ∪ B))))%Q.

Lemma similarity_nonempty (text1 text2 : string) :
  text1 ≠ "" → text2 ≠ "" →
  _calculate_text_similarity (PStr text1) (PStr text2)
  = Ok (if decide (tokens text1 ∪ tokens text2 = ∅) then 1%Q
        else jaccard (tokens text1) (tokens text2)).
Proof.
  intros H1%nonempty_true H2%nonempty_true.
  unfold _calculate_text_similarity, truthy. rewrite H1, H2.
  cbn [negb andb orb py_lower bind]. fold (tokens text1) (tokens text2).
  unfold set_len, py_truediv.
  destruct (decide (tokens text1 ∪ tokens text2 = ∅)) as [He|Hne].
  - by rewrite He, size_empty.
  - assert (size (tokens text1 ∪ tokens text2) ≠ 0%nat) as Hsz
      by (by intros ?%size_empty_inv%leibniz_equiv).
    destruct (Z.eqb_spec (Z.of_nat (size (tokens text1 ∪ tokens text2))) 0)
      as [?|_]; [lia|done].
Qed.

Lemma jaccard_range (A B : gset string) :
  A ∪ B ≠ ∅ → (0 <= jaccard A B <= 1)%Q.
Proof.
  intros Hne. unfold jaccard.
  assert (size (A ∪ B) ≠ 0%nat) as Hsz
    by (by intros ?%size_empty_inv%leibniz_equiv).
  assert (size (A ∩ B) ≤ size (A ∪ B))%nat as Hle
    by (apply subseteq_size; intros x [? _]%elem_of_intersection;
        apply elem_of_union; by left).
  assert (0 < inject_Z (Z.of_nat (size (A ∪ B))))%Q as Hpos
    by (rewrite <- (Zlt_Qlt 0); lia).
  split.
  - apply Qle_shift_div_l; [done|]. rewrite Qmult_0_l.
    rewrite <- (Zle_Qle 0). lia.
  - apply Qle_shift_div_r; [done|]. rewrite Qmult_1_l.
    rewrite <- Zle_Qle. lia.
Qed.

(** ** Tokens, in the words of the specification *)

(** The small letter a capital stands for: A..Z, and the capitals of the
    Latin-1 range with the small letters 32 code points above them. *)
Definition capital_letters : list ascii :=
  chars "ABCDEFGHIJKLMNOPQRSTUVWXYZ"
  ++ (Ascii.ascii_of_N <$>
        [192; 193; 194; 195; 196; 197; 198; 199; 200; 201; 202; 203;
         204; 205; 206; 207; 208; 209; 210; 211; 212; 213; 214;
         216; 217; 218; 219; 220; 221; 222]%N).

Definition small_letters : list ascii :=
  chars "abcdefghijklmnopqrstuvwxyz"
  ++ (Ascii.ascii_of_N <$>
        [224; 225; 226; 227; 228; 229; 230; 231; 232; 233; 234; 235;
         236; 237; 238; 239; 240; 241; 242; 243; 244; 245; 246;
         248; 249; 250; 251; 252; 253; 254]%N).

Definition small_letter_of (c : ascii) : ascii :=
  match list_find (λ capital, capital = c) capital_letters with
  | Some (i, _) => default c (small_letters !! i)
  | None => c
  end.

(** A text with every capital letter replaced by its small letter. *)
Definition lower_cased (text : string) : string :=
  String.string_of_list_ascii (small_letter_of <$> chars text).

(** A word of a text: a non-empty run of non-whitespace characters,
    bounded on each side by a whitespace character or by an end of the
    text. *)
Definition is_word (text word : string) : Prop :=
  word ≠ "" ∧ no_char Char.isspace word
  ∧ ∃ before after : list ascii,
      chars text = before ++ chars word ++ after
      ∧ (∀ c, last before = Some c → Char.isspace c = true)
      ∧ (∀ c, head after = Some c → Char.isspace c = true).

Lemma char_lower_idempotent (c : ascii) :
  Char.lower (Char.lower c) = Char.lower c.
Proof. by destruct c as [[] [] [] [] [] [] [] []]. Qed.

Lemma char_lower_isspace (c : ascii) :
  Char.isspace (Char.lower c) = Char.isspace c.
Proof. by destruct c as [[] [] [] [] [] [] [] []]. Qed.

Lemma lower_idempotent (s : string) : Str.lower (Str.lower s) = Str.lower s.
Proof.
  induction s as [|c r IH]; [done|].
  cbn. by rewrite char_lower_idempotent, IH.
Qed.

Lemma lower_nonempty (s : string) :
  Str.nonempty (Str.lower s) = Str.nonempty s.
Proof. by destruct s. Qed.

Lemma lower_chars (s : string) : chars (Str.lower s) = Char.lower <$> chars s.
Proof. induction s as [|c r IH]; [done|]. cbn. by rewrite IH. Qed.

Lemma char_lower_small_letter (c : ascii) : Char.lower c = small_letter_of c.
Proof. by destruct c as [[] [] [] [] [] [] [] []]. Qed.

Lemma lower_lower_cased (text : string) : Str.lower text = lower_cased text.
Proof.
  apply chars_inj. unfold lower_cased.
  rewrite String.list_ascii_of_string_of_list_ascii, lower_chars.
  apply list_fmap_ext. intros _ c _. apply char_lower_small_letter.
Qed.

Lemma chars_nil (s : string) : chars s = [] ↔ s = "".
Proof. destruct s; split; done. Qed.

(** The runs of a list of characters, as [is_word] has them. *)
Definition run_of (l w : list ascii) : Prop :=
  w ≠ [] ∧ Forall (λ c, Char.isspace c = false) w
  ∧ ∃ before after,
      l = before ++ w ++ after
      ∧ (∀ c, last before = Some c → Char.isspace c = true)
      ∧ (∀ c, head after = Some c → Char.isspace c = true).

Lemma run_of_word (cur w : list ascii) :
  Forall (λ c, Char.isspace c = false) cur →
  run_of cur w ↔ w = cur ∧ cur ≠ [].
Proof.
  intros Hcur. split.
  - intros (Hne & Hw & before & after & -> & Hb & Ha).
    apply Forall_app in Hcur as [Hbefore Hrest].
    apply Forall_app in Hrest as [_ Hafter].
    destruct (last before) as [c|] eqn:Hlast.
    { pose proof (Hb c eq_refl) as Hsp.
      apply last_Some_elem_of in Hlast.
      rewrite Forall_forall in Hbefore. apply Hbefore in Hlast. congruence. }
    apply last_None in Hlast as ->.
    destruct after as [|c after].
    + rewrite app_nil_r. by destruct w.
    + pose proof (Ha c eq_refl) as Hsp.
      apply Forall_cons in Hafter as [? _]. congruence.
  - intros [-> Hne]. split; [done|]. split; [done|].
    exists [], []. by rewrite app_nil_r.
Qed.

Lemma run_of_space (cur : list ascii) (c : ascii) (r w : list ascii) :
  Forall (λ c, Char.isspace c = false) cur → Char.isspace c = true →
  run_of (cur ++ c :: r) w ↔ (w = cur ∧ cur ≠ []) ∨ run_of r w.
Proof.
  intros Hcur Hc. split.
  - intros (Hne & Hw & before & after & Heq & Hb & Ha).
    apply app_eq_app in Heq as [k [[-> Heq]|[-> Heq]]].
    + (* cur = before ++ k, w ++ after = k ++ c :: r *)
      apply Forall_app in Hcur as [Hbefore Hk].
      destruct (last before) as [x|] eqn:Hlast.
      { pose proof (Hb x eq_refl) as Hsp.
        apply last_Some_elem_of in Hlast.
        rewrite Forall_forall in Hbefore. apply Hbefore in Hlast.
        congruence. }
      apply last_None in Hlast as ->. cbn. left.
      apply app_eq_app in Heq as [k' [[-> Heq]|[-> Heq]]].
      * (* w = k ++ k', c :: r = k' ++ after *)
        destruct k' as [|x k']; [by rewrite app_nil_r in *|].
        injection Heq as <- _.
        apply Forall_app in Hw as [_ Hw].
        apply Forall_cons in Hw as [? _]. congruence.
      * (* k = w ++ k', after = k' ++ c :: r *)
        destruct k' as [|x k'].
        { rewrite app_nil_r. by rewrite app_nil_r in Hk. }
        apply Forall_app in Hk as [_ Hk].
        apply Forall_cons in Hk as [Hx _]. subst after.
        pose proof (Ha x eq_refl). congruence.
    + (* before = cur ++ k, c :: r = k ++ w ++ after *)
      destruct k as [|x k].
      * destruct w as [|y w]; [done|]. injection Heq as <- _.
        apply Forall_cons in Hw as [? _]. congruence.
      * injection Heq as <- ->. right.
        split; [done|]. split; [done|]. exists k, after.
        split; [done|]. split; [|done].
        intros y Hy. apply Hb. rewrite last_app, last_cons, Hy. done.
  - intros [[-> Hne]|(Hne & Hw & before & after & -> & Hb & Ha)].
    + split; [done|]. split; [done|]. exists [], (c :: r).
      split; [done|]. split; [done|]. by intros ? [= <-].
    + split; [done|]. split; [done|].
      exists (cur ++ c :: before), after.
      split; [by rewrite <- app_assoc|]. split; [|done].
      intros y. rewrite last_app, last_cons.
      destruct (last before) as [z|] eqn:Hlast.
      * intros [= <-]. by apply Hb.
      * by intros [= <-].
Qed.

Lemma split_go_runs (s : string) : ∀ cur w,
  no_char Char.isspace cur →
  w ∈ Str.split_go cur s ↔ run_of (chars cur ++ chars s) (chars w).
Proof.
  induction s as [|c r IH]; intros cur w Hcur.
  - change (Str.split_go cur "") with (Str.flush cur).
    change (chars "") with (@nil ascii). rewrite app_nil_r.
    rewrite run_of_word by done. rewrite chars_nil. unfold Str.flush.
    destruct cur as [|x cur']; cbn [Str.nonempty].
    + split; [by intros ?%elem_of_nil|by intros [_ ?]].
    + rewrite list_elem_of_singleton. split.
      * by intros ->.
      * by intros [?%chars_inj _].
  - change (Str.split_go cur (String c r))
      with (if Char.isspace c then Str.flush cur ++ Str.split_go "" r
            else Str.split_go (Str.snoc cur c) r).
    change (chars (String c r)) with (c :: chars r).
    destruct (Char.isspace c) eqn:Hc.
    + rewrite run_of_space by done. rewrite elem_of_app.
      rewrite (IH "" w) by constructor.
      change (chars "" ++ chars r) with (chars r).
      rewrite chars_nil. unfold Str.flush.
      destruct cur as [|x cur']; cbn [Str.nonempty].
      * split.
        -- intros [?%elem_of_nil|?]; [done|by right].
        -- intros [[_ ?]|?]; [done|by right].
      * rewrite list_elem_of_singleton. split.
        -- intros [->|?]; [by left|by right].
        -- intros [[?%chars_inj _]|?]; [by left|by right].
    + rewrite IH.
      * unfold Str.snoc. by rewrite chars_app, <- app_assoc.
      * unfold no_char, Str.snoc. rewrite chars_app. apply Forall_app.
        split; [done|]. by repeat constructor.
Qed.

(** [split] returns exactly the words of the text. *)
Lemma split_words (text word : string) :
  word ∈ Str.split text ↔ is_word text word.
Proof.
  unfold Str.split. rewrite split_go_runs by constructor.
  unfold run_of, is_word. change (chars "" ++ chars text) with (chars text).
  by rewrite chars_nil.
Qed.

Lemma lower_app (a b : string) :
  Str.lower (a +:+ b) = Str.lower a +:+ Str.lower b.
Proof.
  apply chars_inj. by rewrite chars_app, !lower_chars, chars_app, fmap_app.
Qed.

Lemma split_go_lower (s : string) : ∀ cur,
  Str.split_go (Str.lower cur) (Str.lower s)
  = Str.lower <$> Str.split_go cur s.
Proof.
  assert (∀ cur, Str.flush (Str.lower cur) = Str.lower <$> Str.flush cur)
    as Hflush by (by intros [|??]).
  induction s as [|c r IH]; intros cur; [apply Hflush|].
  change (Str.split_go (Str.lower cur) (Str.lower (String c r)))
    with (if Char.isspace (Char.lower c)
          then Str.flush (Str.lower cur) ++ Str.split_go "" (Str.lower r)
          else Str.split_go (Str.snoc (Str.lower cur) (Char.lower c))
                 (Str.lower r)).
  change (Str.split_go cur (String c r))
    with (if Char.isspace c then Str.flush cur ++ Str.split_go "" r
          else Str.split_go (Str.snoc cur c) r).
  rewrite char_lower_isspace. destruct (Char.isspace c).
  - by rewrite fmap_app, Hflush, <- IH.
  - rewrite <- IH. unfold Str.snoc. by rewrite lower_app.
Qed.

(** The tokens of a text are its words, lower-cased. *)
Lemma tokens_words (text token : string) :
  token ∈ tokens text
  ↔ ∃ word, is_word text word ∧ token = lower_cased word.
Proof.
  unfold tokens. rewrite elem_of_list_to_set.
  change (Str.split (Str.lower text))
    with (Str.split_go (Str.lower "") (Str.lower text)).
  rewrite split_go_lower. fold (Str.split text).
  rewrite list_elem_of_fmap. split.
  - intros (word & -> & Hword%split_words). exists word.
    by rewrite lower_lower_cased.
  - intros (word & Hword%split_words & ->). exists word.
    by rewrite lower_lower_cased.
Qed.

(** C1: on two strings [_calculate_text_similarity] returns 1.0 when both
    are empty, 0.0 when exactly one is empty, and otherwise the Jaccard
    index of the two sets of lower-cased whitespace-split tokens, with 1.0
    when their union is empty; a token of a text is one of its words with
    every capital letter replaced by its small letter; the texts ["a b"]
    and ["a c"] score 1/3, as do ["A b"] and ["a C"]. *)
Theorem calculate_text_similarity_spec :
  (∀ text1 text2 : string,
     (text1 = "" → text2 = "" →
        _calculate_text_similarity (PStr text1) (PStr text2) = Ok 1%Q)
     ∧ (text1 = "" → text2 ≠ "" →
        _calculate_text_similarity (PStr text1) (PStr text2) = Ok 0%Q)
     ∧ (text1 ≠ "" → text2 = "" →
        _calculate_text_similarity (PStr text1) (PStr text2) = Ok 0%Q)
     ∧ (text1 ≠ "" → text2 ≠ "" →
        tokens text1 ∪ tokens text2 = ∅ →
        _calculate_text_similarity (PStr text1) (PStr text2) = Ok 1%Q)
     ∧ (text1 ≠ "" → text2 ≠ "" →
        tokens text1 ∪ tokens text2 ≠ ∅ →
        _calculate_text_similarity (PStr text1) (PStr text2)
        = Ok (jaccard (tokens text1) (tokens text2))))
  ∧ (∀ text token : string,
       token ∈ tokens text
       ↔ ∃ word, is_word text word ∧ token = lower_cased word)
  ∧ _calculate_text_similarity (PStr "a b") (PStr "a c") = Ok (1 # 3)%Q
  ∧ _calculate_text_similarity (PStr "A b") (PStr "a C") = Ok (1 # 3)%Q
  ∧ _calculate_text_similarity (PStr "The CAT") (PStr " the cat  sat ")
    = Ok (2 # 3)%Q.
Proof.
  split; [|split; [apply tokens_words|by vm_compute]].
  intros text1 text2. repeat split.
  - by intros -> ->.
  - intros -> H2. by destruct text2.
  - intros H1 ->. by destruct text1.
  - intros H1 H2 He. rewrite similarity_nonempty by done.
    by rewrite decide_True.
  - intros H1 H2 Hne. rewrite similarity_nonempty by done.
    by rewrite decide_False.
Qed.

(** C7: [_calculate_text_similarity] is symmetric on strings, and its value
    lies in the closed interval [0, 1]. *)
Theorem calculate_text_similarity_sym_range (a b : string) :
  _calculate_text_similarity (PStr a) (PStr b)
  = _calculate_text_similarity (PStr b) (PStr a)
  ∧ ∃ q, _calculate_text_similarity (PStr a) (PStr b) = Ok q
         ∧ (0 <= q <= 1)%Q.
Proof.
  destruct (decide (a = "")) as [->|Ha], (decide (b = "")) as [->|Hb].
  - split; [done|]. by exists 1%Q.
  - destruct b; [done|]. split; [done|]. by exists 0%Q.
  - destruct a; [done|]. split; [done|]. by exists 0%Q.
  - rewrite !similarity_nonempty by done. split.
    + unfold jaccard.
      by rewrite (comm_L (∪) (tokens b)), (comm_L (∩) (tokens b)).
    + eexists. split; [done|]. case_decide; [done|].
      by apply jaccard_range.
Qed.

(** ** Summary generation *)

Lemma Qgtb_true (x y : Q) : Qgtb x y = true ↔ (y < x)%Q.
Proof.
  unfold Qgtb. rewrite negb_true_iff, <- not_true_iff_false, Qle_bool_iff.
  split; [apply Qnot_le_lt|apply Qlt_not_le].
Qed.

Lemma Qgtb_false (x y : Q) : Qgtb x y = false ↔ (x <= y)%Q.
Proof. unfold Qgtb. by rewrite negb_false_iff, Qle_bool_iff. Qed.

(** [s] ends with [ending]. *)
Definition ends_with (s ending : string) : Prop :=
  chars ending `suffix_of` chars s.

Global Instance ends_with_dec (s ending : string) :
  Decision (ends_with s ending).
Proof. unfold ends_with. apply _. Defined.

Lemma ends_with_app (s t ending : string) :
  ends_with t ending → ends_with (s +:+ t) ending.
Proof. unfold ends_with. rewrite chars_app. apply suffix_app_r. Qed.

Lemma join_snoc_ends (sep : string) (front : list string) (x : string) :
  ends_with (Str.join sep (front ++ [x])) x.
Proof.
  induction front as [|p front IH]; [by exists []|].
  change ((p :: front) ++ [x]) with (p :: (front ++ [x])).
  destruct (front ++ [x]) as [|y rest] eqn:Heq.
  - by destruct front.
  - change (Str.join sep (p :: y :: rest))
      with (p +:+ sep +:+ Str.join sep (y :: rest)).
    by do 2 apply ends_with_app.
Qed.

(** The three closing sentences. *)
Definition very_similar : string := "The documents are very similar.".
Definition moderate_similarity : string :=
  "The documents have moderate similarity.".
Definition quite_different : string := "The documents are quite different.".

Definition is_qualifier (s : string) : Prop :=
  s = very_similar ∨ s = moderate_similarity ∨ s = quite_different.

Lemma not_qualifier (s ending : string) :
  ends_with s ending →
  ¬ ends_with very_similar ending →
  ¬ ends_with moderate_similarity ending →
  ¬ ends_with quite_different ending →
  ¬ is_qualifier s.
Proof. intros Hs H1 H2 H3 [->| [->| ->]]; auto. Qed.

Ltac ending :=
  match goal with
  | |- ends_with ?s ?e =>
      apply (bool_decide_eq_true_1 (ends_with s e)); by vm_compute
  end.

Ltac not_ending :=
  match goal with
  | |- ¬ ends_with ?s ?e =>
      apply (bool_decide_eq_false_1 (ends_with s e)); by vm_compute
  end.

Section Summary.

Variable render_percent : Q → string.

Definition percent_sentence (score : Q) : string :=
  "The documents are " +:+ render_percent score
    +:+ "% similar in content.".

Definition added_sentence (count : Z) : string :=
  "Document 2 contains " +:+ pretty count
    +:+ " additional sentence(s) not found in Document 1.".

Definition removed_sentence (count : Z) : string :=
  "Document 2 is missing " +:+ pretty count
    +:+ " sentence(s) that are present in Document 1.".

Definition more_sentence (what : string) (delta : Z) : string :=
  "Document 2 has " +:+ pretty delta +:+ " more " +:+ what
    +:+ "(s) than Document 1.".

Definition fewer_sentence (what : string) (delta : Z) : string :=
  "Document 2 has " +:+ pretty delta +:+ " fewer " +:+ what
    +:+ "(s) than Document 1.".

(** The page or table sentence for a delta: none for 0. *)
Definition delta_part (what : string) (delta : Z) : list string :=
  if 0 <? delta then [more_sentence what delta]
  else if delta <? 0 then [fewer_sentence what (Z.abs delta)]
  else [].

Definition count_part (sentence : Z → string) (count : Z) : list string :=
  if 0 <? count then [sentence count] else [].

Definition closing (score : Q) : string :=
  if Qgtb score (8 # 10) then very_similar
  else if Qgtb score (5 # 10) then moderate_similarity
  else quite_different.

Lemma summary_parts (score : Q) (added removed : Z)
    (structure_diff : gmap string Z) :
  _generate_comparison_summary render_percent score added removed
    structure_diff
  = Str.join " "
      ((percent_sentence score
        :: count_part added_sentence added
        ++ count_part removed_sentence removed
        ++ delta_part "page" (dict_get structure_diff "page_count_diff" 0)
        ++ delta_part "table"
             (dict_get structure_diff "table_count_diff" 0))
       ++ [closing score]).
Proof.
  unfold _generate_comparison_summary, count_part, delta_part, closing.
  f_equal.
  destruct (0 <? added), (0 <? removed),
    (0 <? dict_get structure_diff "page_count_diff" 0),
    (dict_get structure_diff "page_count_diff" 0 <? 0),
    (0 <? dict_get structure_diff "table_count_diff" 0),
    (dict_get structure_diff "table_count_diff" 0 <? 0),
    (Qgtb score (8 # 10)), (Qgtb score (5 # 10)); reflexivity.
Qed.

Lemma closing_thresholds (score : Q) :
  ((8 # 10 < score)%Q → closing score = very_similar)
  ∧ ((5 # 10 < score)%Q → (score <= 8 # 10)%Q →
     closing score = moderate_similarity)
  ∧ ((score <= 5 # 10)%Q → closing score = quite_different).
Proof.
  unfold closing. repeat split.
  - by intros ->%Qgtb_true.
  - by intros ->%Qgtb_true ->%Qgtb_false.
  - intros H. assert (score <= 8 # 10)%Q as H'
      by (eapply Qle_trans; [exact H|done]).
    apply Qgtb_false in H, H'. by rewrite H, H'.
Qed.

Lemma percent_not_qualifier (score : Q) :
  ¬ is_qualifier (percent_sentence score).
Proof.
  apply (not_qualifier _ "content."); [|not_ending..].
  unfold percent_sentence. do 2 apply ends_with_app. ending.
Qed.

Lemma count_part_not_qualifier (count : Z) :
  Forall (λ s, ¬ is_qualifier s) (count_part added_sentence count)
  ∧ Forall (λ s, ¬ is_qualifier s) (count_part removed_sentence count).
Proof.
  unfold count_part. split; destruct (0 <? count); repeat constructor;
    (apply (not_qualifier _ "Document 1."); [|not_ending..]);
    do 2 apply ends_with_app; ending.
Qed.

Lemma delta_part_not_qualifier (what : string) (delta : Z) :
  Forall (λ s, ¬ is_qualifier s) (delta_part what delta).
Proof.
  unfold delta_part. destruct (0 <? delta), (delta <? 0);
    repeat constructor;
    (apply (not_qualifier _ "Document 1."); [|not_ending..]);
    do 4 apply ends_with_app; ending.
Qed.

End Summary.

Lemma summary_ends_with_closing (render_percent : Q → string) (score : Q)
    (added removed : Z) (structure_diff : gmap string Z) :
  ends_with
    (_generate_comparison_summary render_percent score added removed
       structure_diff)
    (closing score).
Proof. rewrite summary_parts. apply join_snoc_ends. Qed.

(** The sentences that follow the first one, each after one space. *)
Fixpoint spaced (following : list string) : string :=
  match following with
  | [] => ""
  | sentence :: later => " " +:+ sentence +:+ spaced later
  end.

Lemma join_spaced (first : string) (following : list string) :
  Str.join " " (first :: following) = first +:+ spaced following.
Proof.
  revert first. induction following as [|next later IH]; intros first.
  - cbn. by rewrite str_app_nil_r.
  - change (Str.join " " (first :: next :: later))
      with (first +:+ " " +:+ Str.join " " (next :: later)).
    by rewrite IH.
Qed.

Lemma summary_spaced (render_percent : Q → string) (score : Q)
    (added removed : Z) (structure_diff : gmap string Z) :
  _generate_comparison_summary render_percent score added removed
    structure_diff
  = "The documents are " +:+ render_percent score
    +:+ "% similar in content."
    +:+ spaced
          (count_part added_sentence added
           ++ count_part removed_sentence removed
           ++ delta_part "page" (dict_get structure_diff "page_count_diff" 0)
           ++ delta_part "table"
                (dict_get structure_diff "table_count_diff" 0)
           ++ [closing score]).
Proof.
  rewrite summary_parts, <- app_comm_cons, join_spaced.
  unfold percent_sentence. by rewrite <- !app_assoc, !str_app_assoc.
Qed.

(** C4: the summary is the sentences joined by single spaces in the order
    similarity percentage, added, removed, page delta, table delta, closing
    qualifier: it is the percentage sentence followed by each further
    sentence after one space, and it ends with the qualifier; the added
    (removed) sentence appears exactly when the count is positive, hence
    only when it is non-zero, the page (table) sentence exactly when the
    delta is non-zero; the last sentence is the only qualitative one and is
    chosen by the strict thresholds: above 0.8 very similar, above 0.5 and
    at most 0.8 moderate similarity, otherwise quite different; a summary
    with all six sentences is written out. *)
Theorem generate_comparison_summary_spec (render_percent : Q → string)
    (score : Q) (added removed : Z) (structure_diff : gmap string Z) :
  let page_diff := dict_get structure_diff "page_count_diff" 0 in
  let table_diff := dict_get structure_diff "table_count_diff" 0 in
  ∃ (A R P T : list string) (qualifier : string),
    _generate_comparison_summary render_percent score added removed
      structure_diff
    = Str.join " "
        ((percent_sentence render_percent score :: A ++ R ++ P ++ T)
         ++ [qualifier])
    ∧ ((0 < added → A = [added_sentence added])
       ∧ (added ≤ 0 → A = []) ∧ (A ≠ [] → added ≠ 0))
    ∧ ((0 < removed → R = [removed_sentence removed])
       ∧ (removed ≤ 0 → R = []) ∧ (R ≠ [] → removed ≠ 0))
    ∧ ((0 < page_diff → P = [more_sentence "page" page_diff])
       ∧ (page_diff < 0 → P = [fewer_sentence "page" (Z.abs page_diff)])
       ∧ (P ≠ [] ↔ page_diff ≠ 0))
    ∧ ((0 < table_diff → T = [more_sentence "table" table_diff])
       ∧ (table_diff < 0 → T = [fewer_sentence "table" (Z.abs table_diff)])
       ∧ (T ≠ [] ↔ table_diff ≠ 0))
    ∧ (((8 # 10 < score)%Q → qualifier = "The documents are very similar.")
       ∧ ((5 # 10 < score)%Q → (score <= 8 # 10)%Q →
          qualifier = "The documents have moderate similarity.")
       ∧ ((score <= 5 # 10)%Q →
          qualifier = "The documents are quite different."))
    ∧ is_qualifier qualifier
    ∧ Forall (λ s, ¬ is_qualifier s)
        (percent_sentence render_percent score :: A ++ R ++ P ++ T)
    ∧ _generate_comparison_summary render_percent score added removed
        structure_diff
      = "The documents are " +:+ render_percent score
        +:+ "% similar in content."
        +:+ spaced (A ++ R ++ P ++ T ++ [qualifier])
    ∧ ends_with
        (_generate_comparison_summary render_percent score added removed
           structure_diff)
        qualifier
    ∧ _generate_comparison_summary (λ _, "33.3") (1 # 3) 2 1
        (<["page_count_diff" := 1]> (<["table_count_diff" := -2]> ∅))
      = "The documents are 33.3% similar in content. "
        +:+ "Document 2 contains 2 additional sentence(s) "
        +:+ "not found in Document 1. "
        +:+ "Document 2 is missing 1 sentence(s) "
        +:+ "that are present in Document 1. "
        +:+ "Document 2 has 1 more page(s) than Document 1. "
        +:+ "Document 2 has 2 fewer table(s) than Document 1. "
        +:+ "The documents are quite different.".
Proof.
  intros page_diff table_diff.
  exists (count_part added_sentence added),
    (count_part removed_sentence removed),
    (delta_part "page" page_diff), (delta_part "table" table_diff),
    (closing score).
  split; [apply summary_parts|].
  split; [|split; [|split; [|split; [|split; [|split; [|split]]]]]].
  - unfold count_part. destruct (Z.ltb_spec 0 added); repeat split;
      try done; lia.
  - unfold count_part. destruct (Z.ltb_spec 0 removed); repeat split;
      try done; lia.
  - unfold delta_part.
    destruct (Z.ltb_spec 0 page_diff), (Z.ltb_spec page_diff 0);
      repeat split; try done; lia.
  - unfold delta_part.
    destruct (Z.ltb_spec 0 table_diff), (Z.ltb_spec table_diff 0);
      repeat split; try done; lia.
  - apply closing_thresholds.
  - unfold closing, is_qualifier.
    destruct (Qgtb score (8 # 10)), (Qgtb score (5 # 10)); auto.
  - constructor; [apply percent_not_qualifier|].
    repeat (apply Forall_app; split);
      first [apply count_part_not_qualifier|apply delta_part_not_qualifier].
  - split; [|split].
    + apply summary_spaced.
    + apply summary_ends_with_closing.
    + by vm_compute.
Qed.

(** A string cannot end with two of the closing sentences at once. *)
Lemma moderate_ending_only (s : string) :
  ends_with s moderate_similarity →
  ¬ ends_with s very_similar ∧ ¬ ends_with s quite_different.
Proof.
  intros Hmod.
  split; intros Hother;
    (destruct (suffix_weak_total _ _ _ Hother Hmod) as [H|H]; revert H;
     apply (bool_decide_eq_false_1 _); by vm_compute).
Qed.

(** C5, as the code has it: at similarity 0.8, with no added or removed
    sentence and an empty structure diff, the summary ends with the
    moderate-similarity qualifier rather than the very-similar one; at
    0.81 it ends with the very-similar one. *)
Theorem summary_threshold_0_8 (render_percent : Q → string) :
  ends_with (_generate_comparison_summary render_percent (8 # 10) 0 0 ∅)
    "The documents have moderate similarity."
  ∧ ¬ ends_with
        (_generate_comparison_summary render_percent (8 # 10) 0 0 ∅)
        "The documents are very similar."
  ∧ ends_with (_generate_comparison_summary render_percent (81 # 100) 0 0 ∅)
      "The documents are very similar.".
Proof.
  pose proof (summary_ends_with_closing render_percent (8 # 10) 0 0 ∅)
    as Hmod.
  split; [exact Hmod|]. split.
  - by apply (moderate_ending_only _ Hmod).
  - apply (summary_ends_with_closing render_percent (81 # 100)).
Qed.

(** C5 as stated fails: whatever the percentage prints as, the summary for
    similarity 0.8 does not end with the quite-different qualifier. *)
Lemma summary_0_8_not_quite_different :
  ¬ ∃ render_percent : Q → string,
      ends_with (_generate_comparison_summary render_percent (8 # 10) 0 0 ∅)
        "The documents are quite different.".
Proof.
  intros [render_percent Hdiff].
  pose proof (summary_ends_with_closing render_percent (8 # 10) 0 0 ∅)
    as Hmod.
  by apply (moderate_ending_only _ Hmod).
Qed.

(** ** Comparing two analysis results *)

(** An analysis result as the analysis step builds it: a key may be
    absent, and a present [content], [tables] or [page_count] holds a
    string, a list or an int. *)
Record analysis_result (d : gmap string pyval) : Prop := {
  ar_content : ∀ v, d !! "content" = Some v → ∃ s, v = PStr s;
  ar_tables : ∀ v, d !! "tables" = Some v → ∃ l, v = PList l;
  ar_page_count : ∀ v, d !! "page_count" = Some v → ∃ n, v = PInt n
}.

Definition content_of (d : gmap string pyval) : string :=
  match d !! "content" with Some (PStr s) => s | _ => "" end.

Definition tables_of (d : gmap string pyval) : list pyval :=
  match d !! "tables" with Some (PList l) => l | _ => [] end.

Definition page_count_of (d : gmap string pyval) : Z :=
  match d !! "page_count" with Some (PInt n) => n | _ => 0 end.

(** The sentences of a text, in order, and the number of distinct ones. *)
Definition sentences (text : string) : list string :=
  Str.re_split text ≫= kept.

Definition distinct (l : list string) : Z :=
  Z.of_nat (length (remove_dups l)).

Definition sentence_set (text : string) : gset string :=
  list_to_set (sentences text).

Lemma dict_get_content (d : gmap string pyval) :
  analysis_result d → dict_get d "content" (PStr "") = PStr (content_of d).
Proof.
  intros Hd. unfold dict_get, content_of.
  destruct (d !! "content") as [v|] eqn:E; [|done].
  by destruct (ar_content d Hd v E) as [s ->].
Qed.

Lemma dict_get_tables (d : gmap string pyval) :
  analysis_result d → dict_get d "tables" (PList []) = PList (tables_of d).
Proof.
  intros Hd. unfold dict_get, tables_of.
  destruct (d !! "tables") as [v|] eqn:E; [|done].
  by destruct (ar_tables d Hd v E) as [l ->].
Qed.

Lemma dict_get_page_count (d : gmap string pyval) :
  analysis_result d →
  dict_get d "page_count" (PInt 0) = PInt (page_count_of d).
Proof.
  intros Hd. unfold dict_get, page_count_of.
  destruct (d !! "page_count") as [v|] eqn:E; [|done].
  by destruct (ar_page_count d Hd v E) as [n ->].
Qed.

Lemma similarity_total (text1 text2 : string) :
  ∃ q, _calculate_text_similarity (PStr text1) (PStr text2) = Ok q.
Proof.
  destruct text1 as [|c1 r1], text2 as [|c2 r2]; try by eexists.
  rewrite similarity_nonempty by done. by eexists.
Qed.

Lemma size_list_to_set_distinct (l : list string) :
  Z.of_nat (size (list_to_set l : gset string)) = distinct l.
Proof.
  unfold distinct. f_equal.
  rewrite <- (size_list_to_set (C:=gset string) (remove_dups l))
    by apply NoDup_remove_dups.
  f_equal. apply set_eq. intros x.
  by rewrite !elem_of_list_to_set, elem_of_remove_dups.
Qed.

(** The structure dict built for two analysis results. *)
Definition structure_of (d1 d2 : gmap string pyval) : gmap string Z :=
  let t1 := Z.of_nat (length (tables_of d1)) in
  let t2 := Z.of_nat (length (tables_of d2)) in
  <["doc2_tables" := t2]> (
  <["doc1_tables" := t1]> (
  <["doc2_pages" := page_count_of d2]> (
  <["doc1_pages" := page_count_of d1]> (
  <["table_count_diff" := t2 - t1]> (
  <["page_count_diff" := page_count_of d2 - page_count_of d1]> ∅))))).

(** The report built for two analysis results whose contents score [q]. *)
Definition report_of (render_percent : Q → string)
    (d1 d2 : gmap string pyval) (q : Q) : report :=
  let added := elements (sentence_set (content_of d2)
                         ∖ sentence_set (content_of d1)) in
  let removed := elements (sentence_set (content_of d1)
                           ∖ sentence_set (content_of d2)) in
  let common := elements (sentence_set (content_of d1)
                          ∩ sentence_set (content_of d2)) in
  {| document1 := {|
       filename := dict_get d1 "filename" (PStr "Document 1");
       page_count := page_count_of d1;
       table_count := Z.of_nat (length (tables_of d1));
       content_length := Z.of_nat (String.length (content_of d1)) |};
     document2 := {|
       filename := dict_get d2 "filename" (PStr "Document 2");
       page_count := page_count_of d2;
       table_count := Z.of_nat (length (tables_of d2));
       content_length := Z.of_nat (String.length (content_of d2)) |};
     similarity_score := q;
     diffs := {|
       added_content := take 10 added;
       removed_content := take 10 removed;
       common_content_count := Z.of_nat (length common);
       total_added := Z.of_nat (length added);
       total_removed := Z.of_nat (length removed) |};
     structure_comparison := structure_of d1 d2;
     summary :=
       _generate_comparison_summary render_percent q
         (Z.of_nat (length added)) (Z.of_nat (length removed))
         (structure_of d1 d2) |}.

Lemma compare_documents_analysis_results (render_percent : Q → string)
    (message_of : builtin_error → string) (d1 d2 : gmap string pyval) :
  analysis_result d1 → analysis_result d2 →
  ∃ q,
    _calculate_text_similarity (PStr (content_of d1)) (PStr (content_of d2))
    = Ok q
    ∧ compare_documents render_percent message_of d1 d2
      = ([], Ok (report_of render_percent d1 d2 q)).
Proof.
  intros H1 H2.
  destruct (similarity_total (content_of d1) (content_of d2)) as [q Hq].
  exists q. split; [done|].
  unfold compare_documents, compare_documents_body.
  rewrite !dict_get_content, !dict_get_tables, !dict_get_page_count by done.
  rewrite Hq, !split_into_sentences_str. reflexivity.
Qed.



(** C6: for two analysis results the report's [structure_comparison] has
    [page_count_diff] equal to the second page count minus the first,
    negative when the second is smaller, [table_count_diff] equal to the
    difference of the numbers of tables, and the four raw counts. *)
Theorem compare_documents_structure (render_percent : Q → string)
    (message_of : builtin_error → string) (d1 d2 : gmap string pyval) :
  analysis_result d1 → analysis_result d2 →
  ∃ r,
    compare_documents render_percent message_of d1 d2 = ([], Ok r)
    ∧ structure_comparison r !! "page_count_diff"
      = Some (page_count_of d2 - page_count_of d1)
    ∧ structure_comparison r !! "table_count_diff"
      = Some (Z.of_nat (length (tables_of d2))
              - Z.of_nat (length (tables_of d1)))
    ∧ structure_comparison r !! "doc1_pages" = Some (page_count_of d1)
    ∧ structure_comparison r !! "doc2_pages" = Some (page_count_of d2)
    ∧ structure_comparison r !! "doc1_tables"
      = Some (Z.of_nat (length (tables_of d1)))
    ∧ structure_comparison r !! "doc2_tables"
      = Some (Z.of_nat (length (tables_of d2))).
Proof.
  intros H1 H2.
  destruct (compare_documents_analysis_results render_percent message_of
              d1 d2 H1 H2) as (q & _ & Hr).
  exists (report_of render_percent d1 d2 q). split; [done|].
  cbn [report_of structure_comparison]. unfold structure_of.
  repeat split; by simplify_map_eq.
Qed.

(** ** Failures *)

(** A computation that raises interpreter errors only. *)
Definition builtin_only {A : Type} (m : result A) : Prop :=
  ∀ e, m = Raise e → ∃ b, e = Builtin b.

Lemma builtin_only_Ok {A : Type} (a : A) : builtin_only (Ok a).
Proof. by intros e. Qed.

Lemma builtin_only_Raise {A : Type} (b : builtin_error) :
  builtin_only (@Raise A (Builtin b)).
Proof. intros e [= <-]. by exists b. Qed.

Lemma builtin_only_bind {A B : Type} (m : result A) (k : A → result B) :
  builtin_only m → (∀ a, builtin_only (k a)) → builtin_only (bind m k).
Proof.
  intros Hm Hk e. destruct m as [a|e']; cbn.
  - apply Hk.
  - intros [= <-]. by apply Hm.
Qed.

Create HintDb raises discriminated.
#[local] Hint Resolve builtin_only_Ok builtin_only_Raise : raises.

Lemma py_lower_raises (v : pyval) : builtin_only (py_lower v).
Proof. destruct v; cbn; auto with raises. Qed.

Lemma py_re_split_raises (v : pyval) : builtin_only (py_re_split v).
Proof. destruct v; cbn; auto with raises. Qed.

Lemma py_len_raises (v : pyval) : builtin_only (py_len v).
Proof. destruct v; cbn; auto with raises. Qed.

Lemma int_operands_raises (op : string) (a b : pyval) :
  builtin_only (int_operands op a b).
Proof. destruct a, b; cbn; auto with raises. Qed.

Lemma py_truediv_raises (a b : Z) : builtin_only (py_truediv a b).
Proof. unfold py_truediv. destruct (b =? 0); auto with raises. Qed.

#[local] Hint Resolve py_lower_raises py_re_split_raises py_len_raises
  int_operands_raises py_truediv_raises : raises.

Lemma calculate_text_similarity_raises (text1 text2 : pyval) :
  builtin_only (_calculate_text_similarity text1 text2).
Proof.
  unfold _calculate_text_similarity.
  repeat match goal with
    | |- builtin_only (if ?c then _ else _) => destruct c
    | |- builtin_only (bind _ _) => apply builtin_only_bind; [|intros ?]
    | |- _ => solve [auto with raises]
    end.
Qed.

Lemma split_into_sentences_raises (text : pyval) :
  builtin_only (_split_into_sentences text).
Proof.
  unfold _split_into_sentences.
  apply builtin_only_bind; [|intros ?]; auto with raises.
Qed.

#[local] Hint Resolve calculate_text_similarity_raises
  split_into_sentences_raises : raises.

(** The body raises interpreter errors only. *)
Lemma compare_documents_body_raises (render_percent : Q → string)
    (d1 d2 : gmap string pyval) :
  builtin_only (compare_documents_body render_percent d1 d2).
Proof.
  unfold compare_documents_body.
  repeat match goal with
    | |- builtin_only (bind _ _) => apply builtin_only_bind; [|intros ?]
    | |- builtin_only (let '(_, _) := ?p in _) => destruct p
    | |- _ => solve [auto with raises]
    end.
Qed.

(** C8: an exception raised in the body of [compare_documents] is caught
    and replaced by one generic exception whose message wraps the message
    of the cause, as happens for a [content] that is [None]; a call either
    returns the complete report of the body or raises, never both. *)
Theorem compare_documents_wraps (render_percent : Q → string)
    (message_of : builtin_error → string) :
  (∀ d1 d2 : gmap string pyval,
     (∃ r, compare_documents_body render_percent d1 d2 = Ok r
           ∧ compare_documents render_percent message_of d1 d2
             = ([], Ok r))
     ∨ (∃ cause,
          compare_documents_body render_percent d1 d2
          = Raise (Builtin cause)
          ∧ compare_documents render_percent message_of d1 d2
            = (["Error comparing documents: " +:+ message_of cause],
               Raise (Exception ("Failed to compare documents: "
                                 +:+ message_of cause)))))
  ∧ compare_documents render_percent message_of
      (<["content" := PNone]> ∅) ∅
    = (["Error comparing documents: " +:+ message_of (NotTextLike PNone)],
       Raise (Exception ("Failed to compare documents: "
                         +:+ message_of (NotTextLike PNone)))).
Proof.
  split; [|done]. intros d1 d2. unfold compare_documents.
  destruct (compare_documents_body render_percent d1 d2) as [r|e] eqn:Hbody.
  - left. by exists r.
  - right. destruct (compare_documents_body_raises _ _ _ _ Hbody) as [b ->].
    by exists b.
Qed.

(** ** Missing keys *)

(** [d] with [key] bound to [default] unless it is bound already. *)
Definition set_default (key : string) (default : pyval)
    (d : gmap string pyval) : gmap string pyval :=
  match d !! key with
  | Some _ => d
  | None => <[key := default]> d
  end.

(** An analysis result with every key read by the comparison spelled out:
    the empty string, the empty list and 0 for a missing [content],
    [tables] and [page_count], the placeholder [label] for a missing
    [filename]. *)
Definition with_defaults (label : string) (d : gmap string pyval)
  : gmap string pyval :=
  set_default "filename" (PStr label) (
  set_default "page_count" (PInt 0) (
  set_default "tables" (PList []) (
  set_default "content" (PStr "") d))).

Lemma dict_get_set_default (d : gmap string pyval) (key key' : string)
    (default default' : pyval) :
  dict_get (set_default key default d) key' default'
  = if decide (key = key')
    then dict_get d key default
    else dict_get d key' default'.
Proof.
  unfold set_default, dict_get.
  destruct (d !! key) as [v|] eqn:E; case_decide; simplify_map_eq; done.
Qed.

Lemma dict_get_with_defaults (label : string) (d : gmap string pyval) :
  dict_get (with_defaults label d) "content" (PStr "")
  = dict_get d "content" (PStr "")
  ∧ dict_get (with_defaults label d) "tables" (PList [])
    = dict_get d "tables" (PList [])
  ∧ dict_get (with_defaults label d) "page_count" (PInt 0)
    = dict_get d "page_count" (PInt 0)
  ∧ dict_get (with_defaults label d) "filename" (PStr label)
    = dict_get d "filename" (PStr label).
Proof.
  unfold with_defaults. rewrite !dict_get_set_default.
  repeat split; by repeat case_decide.
Qed.

(** C9, as the code has it: [compare_documents] reads each key through a
    defaulted lookup, so an analysis result behaves as the one in which a
    missing [content], [tables] or [page_count] is the empty string, the
    empty list or 0 and a missing [filename] is the placeholder
    ["Document 1"] or ["Document 2"]; on analysis results, whichever keys
    are missing, it returns a report and raises nothing. *)
Theorem compare_documents_missing_keys (render_percent : Q → string)
    (message_of : builtin_error → string) :
  (∀ d1 d2 : gmap string pyval,
     compare_documents render_percent message_of d1 d2
     = compare_documents render_percent message_of
         (with_defaults "Document 1" d1) (with_defaults "Document 2" d2))
  ∧ (∀ d1 d2 : gmap string pyval,
       analysis_result d1 → analysis_result d2 →
       ∃ r, compare_documents render_percent message_of d1 d2 = ([], Ok r))
  ∧ ∃ r, compare_documents render_percent message_of ∅ ∅ = ([], Ok r).
Proof.
  split; [|split].
  - intros d1 d2. unfold compare_documents, compare_documents_body.
    destruct (dict_get_with_defaults "Document 1" d1) as (-> & -> & -> & ->).
    destruct (dict_get_with_defaults "Document 2" d2) as (-> & -> & -> & ->).
    reflexivity.
  - intros d1 d2 H1 H2.
    destruct (compare_documents_analysis_results render_percent message_of
                d1 d2 H1 H2) as (q & _ & Hr).
    by eexists.
  - by eexists.
Qed.

(** C9 as stated fails: with every key missing, the report does not carry
    the empty string as file name, so the call differs from the one in
    which the missing [filename] is the empty string. *)
Lemma missing_filename_not_empty :
  ¬ ∃ (render_percent : Q → string)
      (message_of : builtin_error → string),
      compare_documents render_percent message_of ∅ ∅
      = compare_documents render_percent message_of
          (<["filename" := PStr ""]> ∅) ∅.
Proof.
  intros (render_percent & message_of & H).
  apply (f_equal (λ out, match out.2 with
                         | Ok r => filename (document1 r)
                         | Raise _ => PNone
                         end)) in H.
  vm_compute in H. discriminate H.
Qed.

(** * Worked instances *)

(** The two documents of the end-to-end scenario, and a pair whose second
    document is the shorter one. *)
Definition cat_happy : gmap string pyval :=
  <["content" := PStr "The cat sat. It was happy."]> (
  <["page_count" := PInt 1]> ∅).

Definition cat_sad : gmap string pyval :=
  <["content" := PStr "The cat sat. It was sad. New info here."]> (
  <["page_count" := PInt 2]> ∅).

Definition three_pages : gmap string pyval :=
  <["page_count" := PInt 3]> (<["tables" := PList [PNone; PNone]]> ∅).

Definition one_page : gmap string pyval := <["page_count" := PInt 1]> ∅.

Ltac analysis_result_here :=
  constructor; intros v Hv; vm_compute in Hv;
  first [discriminate Hv | injection Hv as <-; eexists; reflexivity].

Lemma cat_happy_result : analysis_result cat_happy.
Proof. analysis_result_here. Defined.

Lemma cat_sad_result : analysis_result cat_sad.
Proof. analysis_result_here. Defined.

Lemma three_pages_result : analysis_result three_pages.
Proof. analysis_result_here. Defined.

Lemma one_page_result : analysis_result one_page.
Proof. analysis_result_here. Defined.

Lemma calculate_text_similarity_spec_witness :
  "A b" ≠ "" ∧ "a C" ≠ "" ∧ tokens "A b" ∪ tokens "a C" ≠ ∅
  ∧ is_word "A b" "A"
  ∧ _calculate_text_similarity (PStr "A b") (PStr "a C")
    = Ok (jaccard (tokens "A b") (tokens "a C"))
  ∧ "a" ∈ tokens "A b".
Proof.
  assert ("A b" ≠ "") as H1 by discriminate.
  assert ("a C" ≠ "") as H2 by discriminate.
  assert (tokens "A b" ∪ tokens "a C" ≠ ∅) as H3
    by (intros H%(f_equal size); vm_compute in H; discriminate H).
  assert (is_word "A b" "A") as H4.
  { split; [discriminate|]. split; [repeat constructor|].
    exists [], (chars " b"). split; [reflexivity|].
    split; [intros c Hc; discriminate Hc|].
    intros c Hc. injection Hc as <-. reflexivity. }
  split; [exact H1|]. split; [exact H2|]. split; [exact H3|].
  split; [exact H4|].
  destruct calculate_text_similarity_spec as (Hspec & Htokens & _).
  split.
  - destruct (Hspec "A b" "a C") as (_ & _ & _ & _ & Hjaccard).
    exact (Hjaccard H1 H2 H3).
  - apply (Htokens "A b" "a"). exists "A". split; [exact H4|reflexivity].
Defined.

Lemma split_into_sentences_spec_witness :
  no_char Char.is_boundary "Hello" ∧ "..." ≠ ""
  ∧ all_chars Char.is_boundary "..." ∧ head_not Char.is_boundary " World"
  ∧ ∃ rest_sentences,
      _split_into_sentences (PStr " World") = Ok rest_sentences
      ∧ _split_into_sentences (PStr ("Hello" +:+ "..." +:+ " World"))
        = Ok (kept "Hello" ++ rest_sentences).
Proof.
  assert (no_char Char.is_boundary "Hello") as H1 by (repeat constructor).
  assert ("..." ≠ "") as H2 by discriminate.
  assert (all_chars Char.is_boundary "...") as H3 by (repeat constructor).
  assert (head_not Char.is_boundary " World") as H4
    by (intros c [= <-]; reflexivity).
  split; [exact H1|]. split; [exact H2|]. split; [exact H3|].
  split; [exact H4|].
  destruct split_into_sentences_spec as (_ & Hrun & _).
  exact (Hrun "Hello" "..." " World" H1 H2 H3 H4).
Defined.

Lemma generate_comparison_summary_spec_witness :
  (8 # 10 < 9 # 10)%Q
  ∧ (∃ front,
       _generate_comparison_summary (λ _, "90.0") (9 # 10) 2 0
         (<["page_count_diff" := -1]> ∅)
       = Str.join " " (front ++ ["The documents are very similar."]))
  ∧ ends_with
      (_generate_comparison_summary (λ _, "90.0") (9 # 10) 2 0
         (<["page_count_diff" := -1]> ∅))
      "The documents are very similar.".
Proof.
  assert (8 # 10 < 9 # 10)%Q as Hq by reflexivity.
  split; [exact Hq|].
  destruct (generate_comparison_summary_spec (λ _, "90.0") (9 # 10) 2 0
              (<["page_count_diff" := -1]> ∅))
    as (A & R & P & T & qualifier & Heq & _ & _ & _ & _ & Hclosing & _
        & _ & _ & Hends & _).
  destruct Hclosing as [Hvery _].
  rewrite (Hvery Hq) in Heq, Hends.
  split; [eexists; exact Heq|exact Hends].
Defined.


Lemma compare_documents_structure_witness :
  analysis_result three_pages ∧ analysis_result one_page
  ∧ ∃ r,
      compare_documents (λ _, "100.0") (λ _, "") three_pages one_page
      = ([], Ok r)
      ∧ structure_comparison r !! "page_count_diff" = Some (-2)
      ∧ structure_comparison r !! "table_count_diff" = Some (-2).
Proof.
  split; [exact three_pages_result|]. split; [exact one_page_result|].
  destruct (compare_documents_structure (λ _, "100.0") (λ _, "")
              three_pages one_page three_pages_result one_page_result)
    as (r & Hr & Hpages & Htables & _).
  exists r. split; [exact Hr|]. split; [exact Hpages|exact Htables].
Defined.

Lemma compare_documents_missing_keys_witness :
  analysis_result one_page ∧ analysis_result ∅
  ∧ ∃ r,
      compare_documents (λ _, "0.0") (λ _, "") one_page ∅ = ([], Ok r).
Proof.
  assert (analysis_result ∅) as Hempty by analysis_result_here.
  split; [exact one_page_result|]. split; [exact Hempty|].
  destruct (compare_documents_missing_keys (λ _, "0.0") (λ _, ""))
    as (_ & Hok & _).
  exact (Hok one_page ∅ one_page_result Hempty).
Defined.


(** * Further properties of the similarity *)

Lemma tokens_lower (s : string) : tokens (Str.lower s) = tokens s.
Proof. unfold tokens. by rewrite lower_idempotent. Qed.

(** Read in order, the words returned by [split] are the text without its
    whitespace characters. *)
Lemma split_go_chars (s : string) : ∀ cur,
  concat (chars <$> Str.split_go cur s)
  = chars cur ++ filter (λ c, Char.isspace c = false) (chars s).
Proof.
  assert (∀ cur, concat (chars <$> Str.flush cur) = chars cur) as Hflush
    by (intros [|c r]; cbn; by rewrite ?app_nil_r).
  induction s as [|c r IH]; intros cur.
  - change (Str.split_go cur "") with (Str.flush cur).
    change (chars "") with (@nil ascii).
    by rewrite Hflush, filter_nil, app_nil_r.
  - change (Str.split_go cur (String c r))
      with (if Char.isspace c then Str.flush cur ++ Str.split_go "" r
            else Str.split_go (Str.snoc cur c) r).
    change (chars (String c r)) with (c :: chars r).
    destruct (Char.isspace c) eqn:Hc.
    + rewrite fmap_app, concat_app, IH, Hflush.
      by rewrite filter_cons_False by congruence.
    + rewrite IH, filter_cons_True by done. unfold Str.snoc.
      by rewrite chars_app, <- app_assoc.
Qed.

Lemma split_nil_iff (s : string) :
  Str.split s = [] ↔ all_chars Char.isspace s.
Proof.
  unfold all_chars. split.
  - intros H. pose proof (split_go_chars s "") as Hc.
    fold (Str.split s) in Hc. rewrite H in Hc.
    cbn in Hc. symmetry in Hc.
    apply Forall_forall. intros c Hin.
    destruct (Char.isspace c) eqn:Hsp; [done|].
    assert (c ∈ filter (λ c, Char.isspace c = false) (chars s)) as Hf
      by (by apply list_elem_of_filter).
    rewrite Hc in Hf. by apply not_elem_of_nil in Hf.
  - intros H. rewrite <- (str_app_nil_r s).
    by rewrite (split_leading_space s "" H).
Qed.

Lemma list_to_set_empty_iff (l : list string) :
  (list_to_set l : gset string) = ∅ ↔ l = [].
Proof.
  split; [|by intros ->]. destruct l as [|x l]; [done|]. intros H.
  assert (x ∈ (∅ : gset string)) as Hx
    by (rewrite <- H; apply elem_of_list_to_set; left).
  by apply not_elem_of_empty in Hx.
Qed.

Lemma tokens_empty_iff (s : string) :
  tokens s = ∅ ↔ all_chars Char.isspace s.
Proof.
  unfold tokens. rewrite list_to_set_empty_iff, split_nil_iff.
  unfold all_chars. rewrite lower_chars, Forall_fmap.
  apply Forall_iff. intros c. cbn. by rewrite char_lower_isspace.
Qed.

Lemma Qdiv_inject_eq (a b c : Z) :
  0 < b → (inject_Z a / inject_Z b == inject_Z c)%Q ↔ a = c * b.
Proof.
  intros Hb. destruct b as [|p|p]; [lia| |lia].
  unfold Qeq, Qdiv, Qmult, Qinv, inject_Z. cbn. lia.
Qed.

Lemma union_nonempty_size (A B : gset string) :
  A ∪ B ≠ ∅ → 0 < Z.of_nat (size (A ∪ B)).
Proof.
  intros Hne.
  assert (size (A ∪ B) ≠ 0%nat)
    by (by intros ?%size_empty_inv%leibniz_equiv).
  lia.
Qed.

Lemma jaccard_one_iff (A B : gset string) :
  A ∪ B ≠ ∅ → (jaccard A B == 1)%Q ↔ A = B.
Proof.
  intros Hne. unfold jaccard. change 1%Q with (inject_Z 1).
  rewrite Qdiv_inject_eq by (by apply union_nonempty_size).
  split.
  - intros Hsz.
    assert (A ∩ B = A ∪ B) as Heq.
    { apply set_subseteq_size_eq; [|lia].
      intros x [? _]%elem_of_intersection. apply elem_of_union. by left. }
    apply set_eq. intros x. split; intros Hx.
    + assert (x ∈ A ∩ B) as [_ ?]%elem_of_intersection; [|done].
      rewrite Heq. apply elem_of_union. by left.
    + assert (x ∈ A ∩ B) as [? _]%elem_of_intersection; [|done].
      rewrite Heq. apply elem_of_union. by right.
  - intros ->. rewrite (idemp_L (∩) B), (idemp_L (∪) B). lia.
Qed.

Lemma jaccard_zero_iff (A B : gset string) :
  A ∪ B ≠ ∅ → (jaccard A B == 0)%Q ↔ A ∩ B = ∅.
Proof.
  intros Hne. unfold jaccard. change 0%Q with (inject_Z 0).
  rewrite Qdiv_inject_eq by (by apply union_nonempty_size).
  rewrite Z.mul_0_l. split.
  - intros Hsz. apply leibniz_equiv, size_empty_inv. lia.
  - intros ->. by rewrite size_empty.
Qed.

(** On two non-empty strings the similarity is 1 exactly when the two
    token sets are equal, and 0 exactly when they are disjoint and not
    both empty. *)
Theorem similarity_extremes (text1 text2 : string) :
  text1 ≠ "" → text2 ≠ "" →
  ∃ q,
    _calculate_text_similarity (PStr text1) (PStr text2) = Ok q
    ∧ ((q == 1)%Q ↔ tokens text1 = tokens text2)
    ∧ ((q == 0)%Q ↔
       tokens text1 ∩ tokens text2 = ∅ ∧ tokens text1 ∪ tokens text2 ≠ ∅).
Proof.
  intros H1 H2. rewrite similarity_nonempty by done.
  eexists. split; [done|]. case_decide as Hu.
  - apply empty_union_L in Hu as [-> ->]. split; [done|].
    split; [discriminate|]. by intros [_ ?].
  - split; [by apply jaccard_one_iff|].
    rewrite jaccard_zero_iff by done. split; [done|by intros [? _]].
Qed.

(** The similarity of two non-empty strings depends on them through their
    token sets only, so it ignores letter case, word order, repeated words
    and the amount of whitespace; lower-casing an argument never changes
    the result. *)
Theorem similarity_by_tokens :
  (∀ a a' b b' : string,
     a ≠ "" → a' ≠ "" → b ≠ "" → b' ≠ "" →
     tokens a = tokens a' → tokens b = tokens b' →
     _calculate_text_similarity (PStr a) (PStr b)
     = _calculate_text_similarity (PStr a') (PStr b'))
  ∧ (∀ a b : string,
       _calculate_text_similarity (PStr (Str.lower a)) (PStr b)
       = _calculate_text_similarity (PStr a) (PStr b)
       ∧ _calculate_text_similarity (PStr a) (PStr (Str.lower b))
         = _calculate_text_similarity (PStr a) (PStr b)).
Proof.
  split.
  - intros a a' b b' Ha Ha' Hb Hb' Hta Htb.
    rewrite !similarity_nonempty by done. by rewrite Hta, Htb.
  - intros a b.
    assert (∀ s, s ≠ "" → Str.lower s ≠ "") as Hne
      by (by intros [|??]).
    destruct a as [|ca ra], b as [|cb rb]; try done.
    split; rewrite !similarity_nonempty by (try apply Hne; done);
      by rewrite tokens_lower.
Qed.

(** Two non-empty strings made of whitespace only score 1.0, through the
    empty-union guard; a non-empty whitespace-only string scores 0 against
    a string that holds a word. *)
Theorem similarity_whitespace_only (text1 text2 : string) :
  text1 ≠ "" → text2 ≠ "" → all_chars Char.isspace text1 →
  (all_chars Char.isspace text2 →
   _calculate_text_similarity (PStr text1) (PStr text2) = Ok 1%Q)
  ∧ (¬ all_chars Char.isspace text2 →
     ∃ q, _calculate_text_similarity (PStr text1) (PStr text2) = Ok q
          ∧ (q == 0)%Q).
Proof.
  intros H1 H2 Hws%tokens_empty_iff.
  rewrite similarity_nonempty by done. rewrite Hws, (left_id_L ∅ (∪)).
  split.
  - intros ->%tokens_empty_iff. by rewrite decide_True.
  - intros Hne. rewrite <- tokens_empty_iff in Hne.
    rewrite decide_False by done. eexists. split; [done|].
    apply jaccard_zero_iff; [by rewrite (left_id_L ∅ (∪))|].
    apply (left_absorb_L ∅ (∩)).
Qed.

(** Whatever the two values are, the similarity is 1.0 when both are
    falsy, 0.0 when exactly one is, a number between 0 and 1 when both are
    non-empty strings, and otherwise fails on the first truthy argument
    that is not a string, which has no [lower]; in particular the division
    never fails. *)
Theorem similarity_outcome (text1 text2 : pyval) :
  (truthy text1 = false → truthy text2 = false →
   _calculate_text_similarity text1 text2 = Ok 1%Q)
  ∧ (truthy text1 ≠ truthy text2 →
     _calculate_text_similarity text1 text2 = Ok 0%Q)
  ∧ (truthy text1 = true → truthy text2 = true →
     (∃ s1 s2 q,
        text1 = PStr s1 ∧ text2 = PStr s2
        ∧ _calculate_text_similarity text1 text2 = Ok q
        ∧ (0 <= q <= 1)%Q)
     ∨ ((∀ s, text1 ≠ PStr s)
        ∧ _calculate_text_similarity text1 text2
          = Raise (Builtin (NoAttribute text1 "lower")))
     ∨ ((∃ s, text1 = PStr s) ∧ (∀ s, text2 ≠ PStr s)
        ∧ _calculate_text_similarity text1 text2
          = Raise (Builtin (NoAttribute text2 "lower")))).
Proof.
  split; [|split].
  - intros H1 H2. unfold _calculate_text_similarity. by rewrite H1, H2.
  - intros Hne. unfold _calculate_text_similarity.
    by destruct (truthy text1), (truthy text2).
  - intros H1 H2.
    destruct text1 as [| n1 | s1 | l1 | m1];
      try (right; left; split; [done|];
           unfold _calculate_text_similarity; by rewrite H1, H2).
    destruct text2 as [| n2 | s2 | l2 | m2];
      try (right; right; split; [by eexists|]; split; [done|];
           unfold _calculate_text_similarity; by rewrite H1, H2).
    left. apply nonempty_true in H1, H2.
    rewrite similarity_nonempty by done.
    eexists _, _, _. repeat (split; [done|]).
    case_decide; [done|]. by apply jaccard_range.
Qed.

(** * Further properties of the sentence segmentation *)

Lemma space_not_boundary (c : ascii) :
  Char.isspace c = true → Char.is_boundary c = false.
Proof. by destruct c as [[] [] [] [] [] [] [] []]. Qed.

Lemma lstrip_id (s : string) : head_not Char.isspace s → Str.lstrip s = s.
Proof. destruct s as [|c r]; [done|]. intros H. cbn. by rewrite (H c). Qed.

Lemma rstrip_id (s : string) : last_not Char.isspace s → Str.rstrip s = s.
Proof.
  induction s as [|c r IH]; [done|]. intros H. cbn.
  destruct r as [|c' r'].
  - cbn. by rewrite (H c).
  - rewrite IH by (intros x Hx; by apply H). done.
Qed.

Lemma lstrip_space_app (ws s : string) :
  all_chars Char.isspace ws → Str.lstrip (ws +:+ s) = Str.lstrip s.
Proof.
  induction ws as [|c ws IH]; [done|].
  intros [Hc Hws]%Forall_cons. rewrite str_app_cons. cbn.
  rewrite Hc. by apply IH.
Qed.

Lemma strip_space (ws : string) :
  all_chars Char.isspace ws ↔ Str.strip ws = "".
Proof.
  split.
  - intros H. unfold Str.strip. rewrite <- (str_app_nil_r ws).
    by rewrite lstrip_space_app.
  - intros H. destruct (strip_trims ws) as [(l & t & Heq & Hl & Ht) _].
    rewrite H in Heq. rewrite Heq. unfold all_chars.
    rewrite chars_app. by apply Forall_app.
Qed.

Lemma strip_space_clean (ws s : string) :
  all_chars Char.isspace ws → clean_sentence s → Str.strip (ws +:+ s) = s.
Proof.
  intros Hws [_ Hhead Hlast _]. unfold Str.strip.
  by rewrite lstrip_space_app, lstrip_id, rstrip_id.
Qed.

Lemma kept_space_clean (ws s : string) :
  all_chars Char.isspace ws → clean_sentence s → kept (ws +:+ s) = [s].
Proof.
  intros Hws Hs. unfold kept. rewrite strip_space_clean by done.
  destruct Hs as [Hne _ _ _]. by apply nonempty_true in Hne as ->.
Qed.

Lemma kept_nil_iff (fragment : string) :
  kept fragment = [] ↔ all_chars Char.isspace fragment.
Proof.
  unfold kept. rewrite strip_space.
  destruct (Str.strip fragment); cbn; split; done.
Qed.

Lemma space_clean_no_boundary (ws s : string) :
  all_chars Char.isspace ws → clean_sentence s →
  no_char Char.is_boundary (ws +:+ s).
Proof.
  intros Hws [_ _ _ Hs]. unfold no_char. rewrite chars_app.
  apply Forall_app. split; [|done].
  eapply Forall_impl; [exact Hws|]. apply space_not_boundary.
Qed.

Lemma sentences_joined (l : list string) :
  Forall clean_sentence l →
  ∀ ws, all_chars Char.isspace ws →
        sentences (ws +:+ Str.join ". " l) = l.
Proof.
  unfold sentences.
  induction l as [|s l IH]; intros Hl ws Hws.
  - cbn. rewrite str_app_nil_r, re_split_no_boundary.
    + cbn. rewrite app_nil_r. by apply kept_nil_iff.
    + eapply Forall_impl; [exact Hws|]. apply space_not_boundary.
  - apply Forall_cons in Hl as [Hs Hl]. destruct l as [|s' l].
    + cbn. rewrite re_split_no_boundary
        by (by apply space_clean_no_boundary).
      cbn. by rewrite app_nil_r, kept_space_clean.
    + change (Str.join ". " (s :: s' :: l))
        with (s +:+ "." +:+ " " +:+ Str.join ". " (s' :: l)).
      rewrite <- str_app_assoc.
      rewrite re_split_at_run.
      * cbn. rewrite kept_space_clean by done. cbn. f_equal.
        apply IH; [done|]. by repeat constructor.
      * by apply space_clean_no_boundary.
      * done.
      * by repeat constructor.
      * by intros c [= <-].
Qed.

(** Clean sentences joined by a full stop and a space are recovered, in
    order, by [_split_into_sentences]; in particular a clean sentence is
    its own only sentence. *)
Theorem split_into_sentences_joined (l : list string) :
  Forall clean_sentence l →
  _split_into_sentences (PStr (Str.join ". " l)) = Ok l.
Proof.
  intros Hl. rewrite split_into_sentences_str. f_equal.
  apply (sentences_joined l Hl ""). constructor.
Qed.

(** Read in order, the pieces returned by [re.split] are the text without
    its boundary characters. *)
Lemma re_split_go_chars (s : string) : ∀ cur in_run,
  (in_run = true → cur = "") →
  concat (chars <$> Str.re_split_go cur in_run s)
  = chars cur ++ filter (λ c, Char.is_boundary c = false) (chars s).
Proof.
  induction s as [|c r IH]; intros cur in_run Hrun.
  - cbn. by rewrite app_nil_r.
  - change (chars (String c r)) with (c :: chars r).
    change (Str.re_split_go cur in_run (String c r))
      with (if Char.is_boundary c then
              if in_run then Str.re_split_go "" true r
              else cur :: Str.re_split_go "" true r
            else Str.re_split_go (Str.snoc cur c) false r).
    destruct (Char.is_boundary c) eqn:Hc.
    + rewrite filter_cons_False by congruence.
      destruct in_run.
      * rewrite IH by done. by rewrite (Hrun eq_refl).
      * by rewrite fmap_cons, concat_cons, IH.
    + rewrite IH, filter_cons_True by done. unfold Str.snoc.
      by rewrite chars_app, <- app_assoc.
Qed.

Lemma bind_nil_iff {A B : Type} (f : A → list B) (l : list A) :
  l ≫= f = [] ↔ Forall (λ x, f x = []) l.
Proof.
  induction l as [|x l IH]; [by split|].
  cbn. rewrite Forall_cons, <- IH. split.
  - by intros [? ?]%app_eq_nil.
  - by intros [-> ->].
Qed.

(** A text has no sentence exactly when it is made of whitespace and of
    the characters [.], [!], [?] only. *)
Theorem split_into_sentences_nil_iff (text : string) :
  _split_into_sentences (PStr text) = Ok []
  ↔ Forall (λ c, Char.isspace c = true ∨ Char.is_boundary c = true)
      (chars text).
Proof.
  rewrite split_into_sentences_str.
  assert (Ok (Str.re_split text ≫= kept) = Ok []
          ↔ Str.re_split text ≫= kept = []) as ->
    by (split; [by intros [= ->]|by intros ->]).
  rewrite bind_nil_iff.
  assert (Forall (λ x, kept x = []) (Str.re_split text)
          ↔ Forall (λ c, Char.isspace c = true)
              (concat (chars <$> Str.re_split text))) as ->.
  { rewrite Forall_concat, Forall_fmap. apply Forall_iff. intros p.
    apply kept_nil_iff. }
  unfold Str.re_split. rewrite re_split_go_chars by done. cbn.
  rewrite !Forall_forall. split.
  - intros H c Hc. destruct (Char.is_boundary c) eqn:Hb; [by right|].
    left. apply H. by apply list_elem_of_filter.
  - intros H c [Hb Hc]%list_elem_of_filter.
    destruct (H c Hc) as [?|?]; [done|congruence].
Qed.

(** * Further properties of the comparison *)

(** The keys [compare_documents] reads. *)
Definition read_keys : list string :=
  ["content"; "page_count"; "tables"; "filename"].

Definition same_read_keys (d d' : gmap string pyval) : Prop :=
  ∀ key, key ∈ read_keys → d !! key = d' !! key.

(** The call fails with the wrapped message of [cause], which it logs. *)
Definition fails_with (render_percent : Q → string)
    (message_of : builtin_error → string) (d1 d2 : gmap string pyval)
    (cause : builtin_error) : Prop :=
  compare_documents render_percent message_of d1 d2
  = (["Error comparing documents: " +:+ message_of cause],
     Raise (Exception ("Failed to compare documents: "
                       +:+ message_of cause))).

Lemma dict_get_same (d d' : gmap string pyval) (key : string)
    (default : pyval) :
  d !! key = d' !! key → dict_get d key default = dict_get d' key default.
Proof. unfold dict_get. by intros ->. Qed.

(** [compare_documents] looks at the keys [content], [page_count],
    [tables] and [filename] only: two pairs of dicts that agree on these
    keys give the same report, or the same failure, whatever else they
    hold, for instance under [pages]. *)
Theorem compare_documents_reads_four_keys (render_percent : Q → string)
    (message_of : builtin_error → string)
    (d1 d1' d2 d2' : gmap string pyval) :
  same_read_keys d1 d1' → same_read_keys d2 d2' →
  compare_documents render_percent message_of d1 d2
  = compare_documents render_percent message_of d1' d2'.
Proof.
  intros H1 H2.
  assert (∀ key, key ∈ read_keys → ∀ default,
            dict_get d1 key default = dict_get d1' key default) as G1
    by (intros; by apply dict_get_same, H1).
  assert (∀ key, key ∈ read_keys → ∀ default,
            dict_get d2 key default = dict_get d2' key default) as G2
    by (intros; by apply dict_get_same, H2).
  assert (∀ key, key ∈ read_keys ↔ In key read_keys) as Hin
    by (intros; apply list_elem_of_In).
  unfold compare_documents, compare_documents_body.
  rewrite !(G1 "content"), !(G1 "page_count"), !(G1 "tables"),
    !(G1 "filename"), !(G2 "content"), !(G2 "page_count"),
    !(G2 "tables"), !(G2 "filename")
    by (apply Hin; cbn; tauto).
  reflexivity.
Qed.

Lemma similarity_comm (a b : string) :
  _calculate_text_similarity (PStr a) (PStr b)
  = _calculate_text_similarity (PStr b) (PStr a).
Proof.
  destruct a as [|ca ra], b as [|cb rb]; try done.
  rewrite !similarity_nonempty by done. unfold jaccard.
  by rewrite (comm_L (∪) (tokens (String cb rb))),
    (comm_L (∩) (tokens (String cb rb))).
Qed.

Lemma similarity_self (a : string) :
  ∃ q, _calculate_text_similarity (PStr a) (PStr a) = Ok q ∧ (q == 1)%Q.
Proof.
  destruct a as [|c r]; [by exists 1%Q|].
  rewrite similarity_nonempty by done. eexists. split; [done|].
  case_decide; [done|]. by apply jaccard_one_iff.
Qed.

(** Comparing an analysis result with itself reports no difference: no
    added and no removed sentence, every distinct sentence common, zero
    page and table deltas, similarity 1, and a summary made of the
    percentage sentence and of the very-similar qualifier. *)
Theorem compare_documents_self (render_percent : Q → string)
    (message_of : builtin_error → string) (d : gmap string pyval) :
  analysis_result d →
  ∃ r,
    compare_documents render_percent message_of d d = ([], Ok r)
    ∧ (similarity_score r == 1)%Q
    ∧ added_content (diffs r) = [] ∧ removed_content (diffs r) = []
    ∧ total_added (diffs r) = 0 ∧ total_removed (diffs r) = 0
    ∧ common_content_count (diffs r) = distinct (sentences (content_of d))
    ∧ structure_comparison r !! "page_count_diff" = Some 0
    ∧ structure_comparison r !! "table_count_diff" = Some 0
    ∧ summary r
      = "The documents are " +:+ render_percent (similarity_score r)
        +:+ "% similar in content. The documents are very similar.".
Proof.
  intros Hd.
  destruct (compare_documents_analysis_results render_percent message_of
              d d Hd Hd) as (q & Hq & Hr).
  destruct (similarity_self (content_of d)) as (q' & Hq' & Hone).
  rewrite Hq in Hq'. injection Hq' as <-.
  exists (report_of render_percent d d q). split; [done|].
  split; [done|].
  cbn [report_of diffs similarity_score added_content removed_content
       total_added total_removed common_content_count
       structure_comparison summary].
  rewrite difference_diag_L, elements_empty, (idemp_L (∩)).
  repeat (split; [done|]).
  split; [apply size_list_to_set_distinct|].
  assert (structure_of d d !! "page_count_diff" = Some 0) as Hp
    by (unfold structure_of; simplify_map_eq; f_equal; lia).
  assert (structure_of d d !! "table_count_diff" = Some 0) as Ht
    by (unfold structure_of; simplify_map_eq; f_equal; lia).
  do 2 (split; [done|]).
  rewrite summary_parts. unfold dict_get. rewrite Hp, Ht.
  assert (closing q = very_similar) as ->.
  { apply closing_thresholds. by rewrite Hone. }
  change (Z.of_nat 0) with 0. unfold count_part, percent_sentence. cbn.
  by rewrite !str_app_assoc.
Qed.

(** Swapping the two analysis results swaps the added and removed totals
    and negates the page and table deltas; the common count and the
    similarity are unchanged. *)
Theorem compare_documents_swap (render_percent : Q → string)
    (message_of : builtin_error → string) (d1 d2 : gmap string pyval) :
  analysis_result d1 → analysis_result d2 →
  ∃ r r' pages tables,
    compare_documents render_percent message_of d1 d2 = ([], Ok r)
    ∧ compare_documents render_percent message_of d2 d1 = ([], Ok r')
    ∧ similarity_score r' = similarity_score r
    ∧ total_added (diffs r') = total_removed (diffs r)
    ∧ total_removed (diffs r') = total_added (diffs r)
    ∧ common_content_count (diffs r') = common_content_count (diffs r)
    ∧ structure_comparison r !! "page_count_diff" = Some pages
    ∧ structure_comparison r' !! "page_count_diff" = Some (- pages)
    ∧ structure_comparison r !! "table_count_diff" = Some tables
    ∧ structure_comparison r' !! "table_count_diff" = Some (- tables).
Proof.
  intros H1 H2.
  destruct (compare_documents_analysis_results render_percent message_of
              d1 d2 H1 H2) as (q & Hq & Hr).
  destruct (compare_documents_analysis_results render_percent message_of
              d2 d1 H2 H1) as (q' & Hq' & Hr').
  rewrite similarity_comm, Hq in Hq'. injection Hq' as <-.
  exists (report_of render_percent d1 d2 q),
    (report_of render_percent d2 d1 q),
    (page_count_of d2 - page_count_of d1),
    (Z.of_nat (length (tables_of d2)) - Z.of_nat (length (tables_of d1))).
  do 2 (split; [done|]).
  cbn [report_of diffs similarity_score total_added total_removed
       common_content_count structure_comparison].
  do 3 (split; [done|]).
  split; [by rewrite (comm_L (∩))|].
  unfold structure_of. repeat split; simplify_map_eq; f_equal; lia.
Qed.

(** The displayed lists never repeat a sentence, have no sentence in
    common, and show the first 10 of the total when there are more. *)
Theorem compare_documents_displayed (render_percent : Q → string)
    (message_of : builtin_error → string) (d1 d2 : gmap string pyval) :
  analysis_result d1 → analysis_result d2 →
  ∃ r,
    compare_documents render_percent message_of d1 d2 = ([], Ok r)
    ∧ NoDup (added_content (diffs r))
    ∧ NoDup (removed_content (diffs r))
    ∧ (∀ s, s ∈ added_content (diffs r) → s ∉ removed_content (diffs r))
    ∧ Z.of_nat (length (added_content (diffs r)))
      = Z.min 10 (total_added (diffs r))
    ∧ Z.of_nat (length (removed_content (diffs r)))
      = Z.min 10 (total_removed (diffs r)).
Proof.
  intros H1 H2.
  destruct (compare_documents_analysis_results render_percent message_of
              d1 d2 H1 H2) as (q & _ & Hr).
  exists (report_of render_percent d1 d2 q). split; [done|].
  cbn [report_of diffs added_content removed_content total_added
       total_removed].
  assert (∀ (X Y : gset string) s,
            s ∈ take 10 (elements (X ∖ Y)) → s ∈ X ∧ s ∉ Y) as Hshown.
  { intros X Y s (i & Hs & _)%elem_of_take.
    by apply list_elem_of_lookup_2, elem_of_elements, elem_of_difference
      in Hs. }
  split; [eapply sublist_NoDup; [|apply sublist_take]; apply NoDup_elements|].
  split; [eapply sublist_NoDup; [|apply sublist_take]; apply NoDup_elements|].
  split.
  - intros s [Hin _]%Hshown [_ Hout]%Hshown. done.
  - rewrite !length_take. lia.
Qed.

(** Nothing is reported as added exactly when every sentence of the
    second content is a sentence of the first, and nothing as removed
    exactly when every sentence of the first is one of the second. *)
Theorem compare_documents_no_difference (render_percent : Q → string)
    (message_of : builtin_error → string) (d1 d2 : gmap string pyval) :
  analysis_result d1 → analysis_result d2 →
  ∃ r,
    compare_documents render_percent message_of d1 d2 = ([], Ok r)
    ∧ (total_added (diffs r) = 0
       ↔ sentences (content_of d2) ⊆ sentences (content_of d1))
    ∧ (total_removed (diffs r) = 0
       ↔ sentences (content_of d1) ⊆ sentences (content_of d2)).
Proof.
  intros H1 H2.
  destruct (compare_documents_analysis_results render_percent message_of
              d1 d2 H1 H2) as (q & _ & Hr).
  exists (report_of render_percent d1 d2 q). split; [done|].
  cbn [report_of diffs total_added total_removed].
  assert (∀ l l' : list string,
            Z.of_nat (length (elements
              ((list_to_set l : gset string) ∖ list_to_set l'))) = 0
            ↔ l ⊆ l') as Hzero.
  { intros l l'.
    set (X := (list_to_set l : gset string) ∖ list_to_set l').
    change (length (elements X)) with (size X).
    assert (Z.of_nat (size X) = 0 ↔ X ≡ ∅) as ->
      by (rewrite <- size_empty_iff; lia).
    unfold X. split.
    - intros He s Hs. destruct (decide (s ∈ l')) as [|Hn]; [done|].
      assert (s ∈ (list_to_set l : gset string) ∖ list_to_set l') as Hd
        by (apply elem_of_difference;
            by rewrite !elem_of_list_to_set).
      apply He in Hd. by apply not_elem_of_empty in Hd.
    - intros Hsub s. split; [|by intros ?%not_elem_of_empty].
      rewrite elem_of_difference, !elem_of_list_to_set.
      intros [Hs Hn]. by apply Hsub in Hs. }
  split; apply Hzero.
Qed.

Lemma dict_get_insert (d : gmap string pyval) (key key' : string)
    (v default : pyval) :
  dict_get (<[key := v]> d) key' default
  = if decide (key = key') then v else dict_get d key' default.
Proof. unfold dict_get. case_decide; by simplify_map_eq. Qed.

Lemma split_into_sentences_not_str (v : pyval) :
  (∀ s, v ≠ PStr s) →
  _split_into_sentences v = Raise (Builtin (NotTextLike v)).
Proof. intros H. destruct v; try done. by destruct (H s). Qed.

Lemma body_fails_with (render_percent : Q → string)
    (message_of : builtin_error → string) (d1 d2 : gmap string pyval)
    (cause : builtin_error) :
  compare_documents_body render_percent d1 d2 = Raise (Builtin cause) →
  fails_with render_percent message_of d1 d2 cause.
Proof. unfold fails_with, compare_documents. by intros ->. Qed.

(** A key that is present with a value of the wrong kind is an error,
    unlike a missing key: a [content] that is [None], an int, a list or a
    dict, a [page_count] that is [None], a string, a list or a dict, or a
    [tables] that is [None] or an int, in either analysis result, makes
    the call fail with the wrapped cause. *)
Theorem compare_documents_ill_typed (render_percent : Q → string)
    (message_of : builtin_error → string) (d1 d2 : gmap string pyval) :
  analysis_result d1 → analysis_result d2 →
  (∀ v, v = PNone ∨ (∃ n, v = PInt n) ∨ (∃ l, v = PList l)
        ∨ (∃ m, v = PDict m) →
     (∃ cause, fails_with render_percent message_of
                 (<["content" := v]> d1) d2 cause)
     ∧ (∃ cause, fails_with render_percent message_of
                   d1 (<["content" := v]> d2) cause))
  ∧ (∀ v, v = PNone ∨ (∃ s, v = PStr s) ∨ (∃ l, v = PList l)
          ∨ (∃ m, v = PDict m) →
       fails_with render_percent message_of
         (<["page_count" := v]> d1) d2
         (BadOperands "-" (PInt (page_count_of d2)) v)
       ∧ fails_with render_percent message_of
           d1 (<["page_count" := v]> d2)
           (BadOperands "-" v (PInt (page_count_of d1))))
  ∧ (∀ v, v = PNone ∨ (∃ n, v = PInt n) →
       fails_with render_percent message_of
         (<["tables" := v]> d1) d2 (NoLen v)
       ∧ fails_with render_percent message_of
           d1 (<["tables" := v]> d2) (NoLen v)).
Proof.
  intros H1 H2.
  pose proof (dict_get_content d1 H1) as Hc1.
  pose proof (dict_get_content d2 H2) as Hc2.
  pose proof (dict_get_page_count d1 H1) as Hp1.
  pose proof (dict_get_page_count d2 H2) as Hp2.
  pose proof (dict_get_tables d1 H1) as Ht1.
  pose proof (dict_get_tables d2 H2) as Ht2.
  destruct (similarity_total (content_of d1) (content_of d2)) as [q Hq].
  split; [|split].
  - intros v Hkind.
    assert (∀ s, v ≠ PStr s) as Hv
      by (by destruct Hkind as [->|[[? ->]|[[? ->]|[? ->]]]]).
    split.
    + destruct (compare_documents_body render_percent
                  (<["content" := v]> d1) d2) as [r|e] eqn:Hbody.
      * exfalso. revert Hbody. unfold compare_documents_body.
        rewrite dict_get_insert, decide_True by done.
        destruct (_calculate_text_similarity v _); [|done]. cbn [bind].
        by rewrite split_into_sentences_not_str.
      * destruct (compare_documents_body_raises _ _ _ _ Hbody) as [b ->].
        exists b. by apply body_fails_with.
    + destruct (compare_documents_body render_percent
                  d1 (<["content" := v]> d2)) as [r|e] eqn:Hbody.
      * exfalso. revert Hbody. unfold compare_documents_body.
        rewrite dict_get_insert, decide_True, Hc1 by done.
        destruct (_calculate_text_similarity _ v); [|done]. cbn [bind].
        rewrite split_into_sentences_str. cbn [bind].
        by rewrite split_into_sentences_not_str.
      * destruct (compare_documents_body_raises _ _ _ _ Hbody) as [b ->].
        exists b. by apply body_fails_with.
  - intros v Hkind.
    assert (∀ n, v ≠ PInt n) as Hv
      by (by destruct Hkind as [->|[[? ->]|[[? ->]|[? ->]]]]).
    split; apply body_fails_with;
      unfold compare_documents_body;
      rewrite !dict_get_insert, ?decide_True, ?decide_False by done;
      rewrite Hc1, Hc2, ?Hp1, ?Hp2, Hq, !split_into_sentences_str;
      cbn [bind]; destruct v; try done; by destruct (Hv n).
  - intros v Hv. split; apply body_fails_with;
      unfold compare_documents_body;
      rewrite !dict_get_insert, ?decide_True, ?decide_False by done;
      rewrite Hc1, Hc2, Hp1, Hp2, ?Ht1, ?Ht2, Hq,
        !split_into_sentences_str;
      cbn [bind int_operands py_len];
      by destruct Hv as [->|[n ->]].
Qed.


(** * Analysing a document *)

(** What the analysis service returns, as far as [analyze_document] reads
    it, one module per class.  The attributes that are only copied keep
    the value they have. *)
Module DocumentLine.
Record t : Type := { content : string }.
End DocumentLine.

Module DocumentPage.
Record t : Type := {
  page_number : Z;
  lines : option (list DocumentLine.t);
  width : option Q;
  height : option Q
}.
End DocumentPage.

Module DocumentTableCell.
Record t : Type := {
  content : string;
  row_index : Z;
  column_index : Z;
  row_span : option Z;
  column_span : option Z
}.
End DocumentTableCell.

Module DocumentTable.
Record t : Type := {
  row_count : Z;
  column_count : Z;
  cells : list DocumentTableCell.t
}.
End DocumentTable.

Module AnalyzeResult.
Record t : Type := {
  content : option string;
  pages : list DocumentPage.t;
  tables : option (list DocumentTable.t)
}.
End AnalyzeResult.

(** The dict returned by [analyze_document] and the dicts it holds, all
    with fixed keys, one module per dict. *)
Module Page.
Record t : Type := {
  page_number : Z;
  content : string;
  width : option Q;
  height : option Q
}.
End Page.

Module Cell.
Record t : Type := {
  content : string;
  row_index : Z;
  column_index : Z;
  row_span : option Z;
  column_span : option Z
}.
End Cell.

Module Table.
Record t : Type := {
  row_count : Z;
  column_count : Z;
  cells : list Cell.t
}.
End Table.

Module Analysis.
Record t : Type := {
  filename : string;
  content : string;
  pages : list Page.t;
  tables : list Table.t;
  page_count : Z
}.
End Analysis.

(** The line feed of ["\n".join(...)]. *)
Definition newline : string := String (Ascii.ascii_of_N 10) "".

(** The loop body over [result.pages]. *)
Definition analysed_page (page : DocumentPage.t) : Page.t :=
  let page_content :=
    match DocumentPage.lines page with
    | Some (first :: rest) =>
        Str.join newline (DocumentLine.content <$> first :: rest)
    | _ => ""
    end in
  {| Page.page_number := DocumentPage.page_number page;
     Page.content := page_content;
     Page.width := DocumentPage.width page;
     Page.height := DocumentPage.height page |}.

(** The loop body over [table.cells]. *)
Definition analysed_cell (cell : DocumentTableCell.t) : Cell.t :=
  {| Cell.content := DocumentTableCell.content cell;
     Cell.row_index := DocumentTableCell.row_index cell;
     Cell.column_index := DocumentTableCell.column_index cell;
     Cell.row_span := DocumentTableCell.row_span cell;
     Cell.column_span := DocumentTableCell.column_span cell |}.

(** The loop body over [result.tables]. *)
Definition analysed_table (table : DocumentTable.t) : Table.t :=
  let table_data := analysed_cell <$> DocumentTable.cells table in
  {| Table.row_count := DocumentTable.row_count table;
     Table.column_count := DocumentTable.column_count table;
     Table.cells := table_data |}.

(** What [analyze_document] builds from the service result. *)
Definition analysed (result : AnalyzeResult.t) (filename : string)
  : Analysis.t :=
  let content :=
    match AnalyzeResult.content result with
    | Some text => if Str.nonempty text then text else ""
    | None => ""
    end in
  let pages := analysed_page <$> AnalyzeResult.pages result in
  let tables :=
    match AnalyzeResult.tables result with
    | Some (first :: rest) => analysed_table <$> first :: rest
    | _ => []
    end in
  {| Analysis.filename := filename;
     Analysis.content := content;
     Analysis.pages := pages;
     Analysis.tables := tables;
     Analysis.page_count := Z.of_nat (length pages) |}.

Section Analyze.

(** [self.client.begin_analyze_document("prebuilt-read", document=...)]
    followed by [poller.result()], on the bytes of the document. *)
Variable analyze_read : list Byte.byte → result AnalyzeResult.t.

Variable message_of : builtin_error → string.

(** The records handed to [logger.error], and the returned dict or the
    raised exception. *)
Definition analyze_document (file_content : list Byte.byte)
    (filename : string) : list string * result Analysis.t :=
  match analyze_read file_content with
  | Ok result => ([], Ok (analysed result filename))
  | Raise e =>
      (["Error analyzing document " +:+ filename +:+ ": "
          +:+ str_exc message_of e],
       Raise (Exception ("Failed to analyze document: "
                         +:+ str_exc message_of e)))
  end.

End Analyze.

(** The values of the returned dict, for what [pyval] can hold: a page
    dict carries floats and is left to the caller. *)
Definition option_int_value (n : option Z) : pyval :=
  match n with Some n => PInt n | None => PNone end.

Definition cell_value (cell : Cell.t) : pyval :=
  PDict (<["content" := PStr (Cell.content cell)]> (
         <["row_index" := PInt (Cell.row_index cell)]> (
         <["column_index" := PInt (Cell.column_index cell)]> (
         <["row_span" := option_int_value (Cell.row_span cell)]> (
         <["column_span" := option_int_value (Cell.column_span cell)]>
           ∅))))).

Definition table_value (table : Table.t) : pyval :=
  PDict (<["row_count" := PInt (Table.row_count table)]> (
         <["column_count" := PInt (Table.column_count table)]> (
         <["cells" := PList (cell_value <$> Table.cells table)]> ∅))).

(** The returned dict, with [pages_value] under [pages]. *)
Definition analysis_dict (pages_value : pyval) (doc : Analysis.t)
  : gmap string pyval :=
  <["filename" := PStr (Analysis.filename doc)]> (
  <["content" := PStr (Analysis.content doc)]> (
  <["pages" := pages_value]> (
  <["tables" := PList (table_value <$> Analysis.tables doc)]> (
  <["page_count" := PInt (Analysis.page_count doc)]> ∅)))).

(** ** Properties of the analysis *)

(** The tables of a service result, none when the attribute is [None]. *)
Definition service_tables (result : AnalyzeResult.t) : list DocumentTable.t :=
  default [] (AnalyzeResult.tables result).

Lemma analysed_tables (result : AnalyzeResult.t) (filename : string) :
  Analysis.tables (analysed result filename)
  = analysed_table <$> service_tables result.
Proof.
  unfold analysed, service_tables. cbn.
  by destruct (AnalyzeResult.tables result) as [[|first rest]|].
Qed.

(** A returned analysis counts its pages: [page_count] is the number of
    page dicts, one per page of the service result and in the same order,
    and there is one table dict per table of the service result, with as
    many cells; nothing is logged. *)
Theorem analyze_document_shape
    (analyze_read : list Byte.byte → result AnalyzeResult.t)
    (message_of : builtin_error → string)
    (file_content : list Byte.byte) (filename : string)
    (log : list string) (doc : Analysis.t) :
  analyze_document analyze_read message_of file_content filename
  = (log, Ok doc) →
  log = []
  ∧ Analysis.filename doc = filename
  ∧ Analysis.page_count doc = Z.of_nat (length (Analysis.pages doc))
  ∧ ∃ result,
      analyze_read file_content = Ok result
      ∧ Page.page_number <$> Analysis.pages doc
        = DocumentPage.page_number <$> AnalyzeResult.pages result
      ∧ Forall2
          (λ table table',
             Table.row_count table = DocumentTable.row_count table'
             ∧ Table.column_count table = DocumentTable.column_count table'
             ∧ length (Table.cells table)
               = length (DocumentTable.cells table'))
          (Analysis.tables doc) (service_tables result).
Proof.
  unfold analyze_document.
  destruct (analyze_read file_content) as [result|e] eqn:Hread; [|done].
  intros [= <- <-]. do 3 (split; [done|]).
  exists result. split; [done|]. split.
  - cbn. rewrite <- list_fmap_compose. by apply list_fmap_ext.
  - rewrite analysed_tables. apply Forall2_fmap_l, Forall_Forall2_diag.
    apply Forall_forall. intros table _. cbn.
    by rewrite length_fmap.
Qed.

Lemma analysis_dict_result (pages_value : pyval) (doc : Analysis.t) :
  analysis_result (analysis_dict pages_value doc)
  ∧ content_of (analysis_dict pages_value doc) = Analysis.content doc
  ∧ page_count_of (analysis_dict pages_value doc) = Analysis.page_count doc
  ∧ tables_of (analysis_dict pages_value doc)
    = table_value <$> Analysis.tables doc
  ∧ analysis_dict pages_value doc !! "filename"
    = Some (PStr (Analysis.filename doc)).
Proof.
  unfold analysis_dict. split; [|by repeat split].
  constructor; intros v Hv; simplify_map_eq; by eexists.
Qed.

(** Two returned analyses can always be compared: whatever sits under
    [pages], [compare_documents] returns a report, whose file names are
    the two given names, whose page counts are the numbers of pages of the
    two service results and whose deltas are their differences. *)
Theorem compare_analysed (render_percent : Q → string)
    (message_of : builtin_error → string)
    (result1 result2 : AnalyzeResult.t) (filename1 filename2 : string)
    (pages_value1 pages_value2 : pyval) :
  ∃ r,
    compare_documents render_percent message_of
      (analysis_dict pages_value1 (analysed result1 filename1))
      (analysis_dict pages_value2 (analysed result2 filename2))
    = ([], Ok r)
    ∧ filename (document1 r) = PStr filename1
    ∧ filename (document2 r) = PStr filename2
    ∧ page_count (document1 r)
      = Z.of_nat (length (AnalyzeResult.pages result1))
    ∧ page_count (document2 r)
      = Z.of_nat (length (AnalyzeResult.pages result2))
    ∧ table_count (document1 r)
      = Z.of_nat (length (service_tables result1))
    ∧ table_count (document2 r)
      = Z.of_nat (length (service_tables result2))
    ∧ structure_comparison r !! "page_count_diff"
      = Some (Z.of_nat (length (AnalyzeResult.pages result2))
              - Z.of_nat (length (AnalyzeResult.pages result1)))
    ∧ structure_comparison r !! "table_count_diff"
      = Some (Z.of_nat (length (service_tables result2))
              - Z.of_nat (length (service_tables result1))).
Proof.
  set (d1 := analysis_dict pages_value1 (analysed result1 filename1)).
  set (d2 := analysis_dict pages_value2 (analysed result2 filename2)).
  destruct (analysis_dict_result pages_value1 (analysed result1 filename1))
    as (H1 & _ & Hp1 & Ht1 & Hf1).
  destruct (analysis_dict_result pages_value2 (analysed result2 filename2))
    as (H2 & _ & Hp2 & Ht2 & Hf2).
  fold d1 in H1, Hp1, Ht1, Hf1. fold d2 in H2, Hp2, Ht2, Hf2.
  destruct (compare_documents_analysis_results render_percent message_of
              d1 d2 H1 H2) as (q & _ & Hr).
  exists (report_of render_percent d1 d2 q). split; [done|].
  cbn [report_of document1 document2 filename page_count table_count
       structure_comparison].
  unfold structure_of, dict_get.
  rewrite Hf1, Hf2, Hp1, Hp2, Ht1, Ht2, !analysed_tables, !length_fmap.
  cbn [analysed Analysis.page_count]. rewrite !length_fmap.
  repeat split; by simplify_map_eq.
Qed.


(** * Building the service *)

(** The credential handed to the client: [DefaultAzureCredential()] or
    [AzureKeyCredential(key)]. *)
Inductive credential : Type :=
  | DefaultAzureCredential
  | AzureKeyCredential (key : string).

Inductive level : Type := INFO | WARNING.

(** What [__init__] depends on: the two settings it reads, whether
    [DefaultAzureCredential()] can be built, and what
    [DocumentAnalysisClient(endpoint=..., credential=...)] gives. *)
Record environment (Client : Type) : Type := {
  endpoint_setting : string;
  key_setting : option string;
  default_credential : result unit;
  new_client : string → credential → result Client
}.
Arguments endpoint_setting {Client} _.
Arguments key_setting {Client} _.
Arguments default_credential {Client} _.
Arguments new_client {Client} _ _ _.

(** The attributes of a [DocumentComparisonService]. *)
Record service (Client : Type) : Type := {
  endpoint : string;
  client : Client
}.
Arguments endpoint {Client} _.
Arguments client {Client} _.

(** The message of the exception raised when no credential can be used. *)
Definition no_authentication : string :=
  "No valid authentication method found for Document Intelligence".

Section Build.

Context {Client : Type}.

Variable message_of : builtin_error → string.

(** [DocumentComparisonService()]: the log records, and the instance or
    the exception raised by [__init__]. *)
Definition init (env : environment Client)
  : list (level * string) * result (service Client) :=
  let endpoint := endpoint_setting env in
  match bind (default_credential env)
             (λ _, new_client env endpoint DefaultAzureCredential) with
  | Ok client =>
      ([(INFO,
         "Document Intelligence client initialized with managed identity")],
       Ok {| endpoint := endpoint; client := client |})
  | Raise e =>
      let warned :=
        [(WARNING, "Failed to initialize with managed identity: "
                   +:+ str_exc message_of e)] in
      let no_key := (warned, Raise (Exception no_authentication)) in
      match key_setting env with
      | Some key =>
          if Str.nonempty key then
            match new_client env endpoint (AzureKeyCredential key) with
            | Ok client =>
                (warned ++
                 [(INFO,
                   "Document Intelligence client initialized with API key")],
                 Ok {| endpoint := endpoint; client := client |})
            | Raise e' => (warned, Raise e')
            end
          else no_key
      | None => no_key
      end
  end.

(** [get_document_comparison_service()], on the value of the global
    [_document_comparison_service]: the outcome and the new value of the
    global. *)
Definition get_document_comparison_service (env : environment Client)
    (global : option (service Client))
  : (list (level * string) * result (service Client))
    * option (service Client) :=
  match global with
  | Some instance => (([], Ok instance), global)
  | None =>
      match init env with
      | (log, Ok instance) => ((log, Ok instance), Some instance)
      | (log, Raise e) => ((log, Raise e), None)
      end
  end.

(** Successive calls, each in the environment of its time. *)
Fixpoint calls (envs : list (environment Client))
    (global : option (service Client))
  : list (list (level * string) * result (service Client))
    * option (service Client) :=
  match envs with
  | [] => ([], global)
  | env :: later =>
      let '(outcome, global') :=
        get_document_comparison_service env global in
      let '(outcomes, final) := calls later global' in
      (outcome :: outcomes, final)
  end.

End Build.

(** ** Properties of the construction *)

Section BuildFacts.

Context {Client : Type}.

Variable message_of : builtin_error → string.

(** The managed-identity attempt of [__init__]. *)
Definition managed_identity (env : environment Client) : result Client :=
  bind (default_credential env)
       (λ _, new_client env (endpoint_setting env) DefaultAzureCredential).

(** The key setting when it is a non-empty string. *)
Definition usable_key (env : environment Client) : option string :=
  match key_setting env with
  | Some key => if Str.nonempty key then Some key else None
  | None => None
  end.

Definition with_key (key : option string) (env : environment Client)
  : environment Client :=
  {| endpoint_setting := endpoint_setting env;
     key_setting := key;
     default_credential := default_credential env;
     new_client := new_client env |}.

(** The construction fails in this environment. *)
Definition init_fails (env : environment Client) : Prop :=
  ∃ log e, init message_of env = (log, Raise e).

(** The key is a fallback only: when the managed-identity attempt works
    the instance holds its client whatever the key setting is; when it
    fails and the key is missing or empty the construction raises the
    fixed no-authentication exception, the cause being left in the warning
    record; and every constructed instance has the configured endpoint and
    a client built for it with one of the two credentials. *)
Theorem init_outcome (env : environment Client) :
  (∀ client, managed_identity env = Ok client →
     ∀ key,
       init message_of (with_key key env)
       = ([(INFO,
            "Document Intelligence client initialized with managed identity")],
          Ok {| endpoint := endpoint_setting env; client := client |}))
  ∧ (∀ cause, managed_identity env = Raise cause → usable_key env = None →
       init message_of env
       = ([(WARNING, "Failed to initialize with managed identity: "
                     +:+ str_exc message_of cause)],
          Raise (Exception no_authentication)))
  ∧ (∀ log instance, init message_of env = (log, Ok instance) →
       endpoint instance = endpoint_setting env
       ∧ (new_client env (endpoint instance) DefaultAzureCredential
          = Ok (client instance)
          ∨ ∃ key,
              usable_key env = Some key
              ∧ new_client env (endpoint instance) (AzureKeyCredential key)
                = Ok (client instance))).
Proof.
  split; [|split].
  - intros client Hm key. unfold init. cbn [with_key endpoint_setting
      default_credential new_client].
    fold (managed_identity env). by rewrite Hm.
  - intros cause Hm Hkey. unfold init. fold (managed_identity env).
    rewrite Hm. unfold usable_key in Hkey.
    destruct (key_setting env) as [key|]; [|done].
    by destruct (Str.nonempty key).
  - intros log instance. unfold init, usable_key.
    fold (managed_identity env).
    destruct (managed_identity env) as [c|e] eqn:Hm.
    + intros [= <- <-]. split; [done|]. left. cbn.
      unfold managed_identity in Hm.
      by destruct (default_credential env) as [[]|].
    + destruct (key_setting env) as [key|]; [|done].
      destruct (Str.nonempty key); [|done].
      destruct (new_client env (endpoint_setting env)
                  (AzureKeyCredential key)) as [c|e'] eqn:Hk; [|done].
      intros [= <- <-]. split; [done|]. right. by exists key.
Qed.

Lemma calls_set (envs : list (environment Client))
    (instance : service Client) :
  calls message_of envs (Some instance)
  = (replicate (length envs) ([], Ok instance), Some instance).
Proof.
  induction envs as [|env later IH]; [done|]. cbn. by rewrite IH.
Qed.

(** All callers get the same instance: from an unset global, the calls
    fail as the construction does until one constructs an instance, and
    from then on every call returns that instance and logs nothing; while
    the calls fail the global stays unset, so that the next call
    constructs again. *)
Theorem singleton_calls (envs : list (environment Client)) :
  (Forall init_fails envs
   ∧ calls message_of envs None = (init message_of <$> envs, None))
  ∨ (∃ before env after log instance,
       envs = before ++ env :: after
       ∧ Forall init_fails before
       ∧ init message_of env = (log, Ok instance)
       ∧ calls message_of envs None
         = ((init message_of <$> before)
            ++ (log, Ok instance)
               :: replicate (length after) ([], Ok instance),
            Some instance)).
Proof.
  induction envs as [|env later IH]; [left; by split|].
  cbn [calls get_document_comparison_service].
  destruct (init message_of env) as [log [instance|e]] eqn:Hinit.
  - right. exists [], env, later, log, instance.
    rewrite calls_set. by repeat split.
  - assert (init_fails env) as Hfail by (by exists log, e).
    destruct IH as [[Hall ->]|
      (before & env' & after & log' & instance & -> & Hb & Hi & ->)].
    + left. split; [by constructor|]. cbn. by rewrite Hinit.
    + right. exists (env :: before), env', after, log', instance.
      split; [done|]. split; [by constructor|]. split; [done|].
      cbn. by rewrite Hinit.
Qed.

End BuildFacts.


(** * Further worked instances *)

Ltac clean_sentence_here :=
  constructor;
  [discriminate
  |intros c Hc; vm_compute in Hc; injection Hc as <-; reflexivity
  |intros c Hc; vm_compute in Hc; injection Hc as <-; reflexivity
  |repeat constructor].

Ltac same_read_keys_here :=
  intros key Hkey; apply list_elem_of_In in Hkey; cbn in Hkey;
  repeat (destruct Hkey as [<-|Hkey]; [reflexivity|]); destruct Hkey.

Lemma similarity_extremes_witness :
  "a b" ≠ "" ∧ "B  a a" ≠ ""
  ∧ ∃ q,
      _calculate_text_similarity (PStr "a b") (PStr "B  a a") = Ok q
      ∧ ((q == 1)%Q ↔ tokens "a b" = tokens "B  a a")
      ∧ ((q == 0)%Q ↔
         tokens "a b" ∩ tokens "B  a a" = ∅
         ∧ tokens "a b" ∪ tokens "B  a a" ≠ ∅).
Proof.
  assert ("a b" ≠ "") as H1 by discriminate.
  assert ("B  a a" ≠ "") as H2 by discriminate.
  split; [exact H1|]. split; [exact H2|].
  exact (similarity_extremes "a b" "B  a a" H1 H2).
Defined.

Lemma similarity_by_tokens_witness :
  "a b" ≠ "" ∧ "B  a a" ≠ "" ∧ "c" ≠ "" ∧ tokens "a b" = tokens "B  a a"
  ∧ _calculate_text_similarity (PStr "a b") (PStr "c")
    = _calculate_text_similarity (PStr "B  a a") (PStr "c").
Proof.
  assert ("a b" ≠ "") as H1 by discriminate.
  assert ("B  a a" ≠ "") as H2 by discriminate.
  assert ("c" ≠ "") as H3 by discriminate.
  assert (tokens "a b" = tokens "B  a a") as H4 by (by vm_compute).
  split; [exact H1|]. split; [exact H2|]. split; [exact H3|].
  split; [exact H4|].
  destruct similarity_by_tokens as [Htokens _].
  exact (Htokens "a b" "B  a a" "c" "c" H1 H2 H3 H3 H4 eq_refl).
Defined.

Lemma similarity_whitespace_only_witness :
  " " ≠ "" ∧ "  " ≠ "" ∧ all_chars Char.isspace " "
  ∧ all_chars Char.isspace "  "
  ∧ _calculate_text_similarity (PStr " ") (PStr "  ") = Ok 1%Q.
Proof.
  assert (" " ≠ "") as H1 by discriminate.
  assert ("  " ≠ "") as H2 by discriminate.
  assert (all_chars Char.isspace " ") as H3 by (repeat constructor).
  assert (all_chars Char.isspace "  ") as H4 by (repeat constructor).
  split; [exact H1|]. split; [exact H2|]. split; [exact H3|].
  split; [exact H4|].
  destruct (similarity_whitespace_only " " "  " H1 H2 H3) as [Hone _].
  exact (Hone H4).
Defined.

Lemma similarity_outcome_witness :
  truthy (PInt 3) = true ∧ truthy (PStr "x") = true
  ∧ ((∃ s1 s2 q,
        PInt 3 = PStr s1 ∧ PStr "x" = PStr s2
        ∧ _calculate_text_similarity (PInt 3) (PStr "x") = Ok q
        ∧ (0 <= q <= 1)%Q)
     ∨ ((∀ s, PInt 3 ≠ PStr s)
        ∧ _calculate_text_similarity (PInt 3) (PStr "x")
          = Raise (Builtin (NoAttribute (PInt 3) "lower")))
     ∨ ((∃ s, PInt 3 = PStr s) ∧ (∀ s, PStr "x" ≠ PStr s)
        ∧ _calculate_text_similarity (PInt 3) (PStr "x")
          = Raise (Builtin (NoAttribute (PStr "x") "lower")))).
Proof.
  assert (truthy (PInt 3) = true) as H1 by reflexivity.
  assert (truthy (PStr "x") = true) as H2 by reflexivity.
  split; [exact H1|]. split; [exact H2|].
  destruct (similarity_outcome (PInt 3) (PStr "x")) as (_ & _ & Hboth).
  exact (Hboth H1 H2).
Defined.

Lemma hello_clean : clean_sentence "Hello".
Proof. clean_sentence_here. Defined.

Lemma how_are_you_clean : clean_sentence "How are you".
Proof. clean_sentence_here. Defined.

Lemma split_into_sentences_joined_witness :
  Forall clean_sentence ["Hello"; "How are you"]
  ∧ _split_into_sentences (PStr (Str.join ". " ["Hello"; "How are you"]))
    = Ok ["Hello"; "How are you"].
Proof.
  assert (Forall clean_sentence ["Hello"; "How are you"]) as H
    by (constructor; [exact hello_clean|];
        constructor; [exact how_are_you_clean|]; constructor).
  split; [exact H|].
  exact (split_into_sentences_joined ["Hello"; "How are you"] H).
Defined.

Lemma compare_documents_reads_four_keys_witness :
  same_read_keys cat_happy (<["pages" := PList [PNone]]> cat_happy)
  ∧ same_read_keys cat_sad (delete "language" cat_sad)
  ∧ compare_documents (λ _, "50.0") (λ _, "") cat_happy cat_sad
    = compare_documents (λ _, "50.0") (λ _, "")
        (<["pages" := PList [PNone]]> cat_happy)
        (delete "language" cat_sad).
Proof.
  assert (same_read_keys cat_happy (<["pages" := PList [PNone]]> cat_happy))
    as H1 by same_read_keys_here.
  assert (same_read_keys cat_sad (delete "language" cat_sad)) as H2
    by same_read_keys_here.
  split; [exact H1|]. split; [exact H2|].
  exact (compare_documents_reads_four_keys (λ _, "50.0") (λ _, "")
           _ _ _ _ H1 H2).
Defined.

Lemma compare_documents_self_witness :
  analysis_result cat_happy
  ∧ ∃ r,
      compare_documents (λ _, "100.0") (λ _, "") cat_happy cat_happy
      = ([], Ok r)
      ∧ total_added (diffs r) = 0 ∧ total_removed (diffs r) = 0
      ∧ summary r
        = "The documents are 100.0% similar in content. "
          +:+ "The documents are very similar.".
Proof.
  split; [exact cat_happy_result|].
  destruct (compare_documents_self (λ _, "100.0") (λ _, "") cat_happy
              cat_happy_result)
    as (r & Hr & _ & _ & _ & Hadded & Hremoved & _ & _ & _ & Hsummary).
  exists r. split; [exact Hr|]. split; [exact Hadded|].
  split; [exact Hremoved|exact Hsummary].
Defined.

Lemma compare_documents_swap_witness :
  analysis_result three_pages ∧ analysis_result one_page
  ∧ ∃ r r',
      compare_documents (λ _, "100.0") (λ _, "") three_pages one_page
      = ([], Ok r)
      ∧ compare_documents (λ _, "100.0") (λ _, "") one_page three_pages
        = ([], Ok r')
      ∧ total_added (diffs r') = total_removed (diffs r)
      ∧ structure_comparison r !! "page_count_diff" = Some (-2)
      ∧ structure_comparison r' !! "page_count_diff" = Some 2.
Proof.
  split; [exact three_pages_result|]. split; [exact one_page_result|].
  destruct (compare_documents_swap (λ _, "100.0") (λ _, "")
              three_pages one_page three_pages_result one_page_result)
    as (r & r' & pages & tables & Hr & Hr' & _ & Hadded & _ & _
        & Hpages & Hpages' & _).
  exists r, r'. split; [exact Hr|]. split; [exact Hr'|].
  split; [exact Hadded|].
  pose proof (f_equal
    (λ out, match out.2 with
            | Ok r => structure_comparison r !! "page_count_diff"
            | Raise _ => None
            end) Hr) as Hvalue.
  cbn [snd] in Hvalue. rewrite Hpages in Hvalue.
  vm_compute in Hvalue. injection Hvalue as Hvalue.
  rewrite Hpages, Hpages', <- Hvalue. split; reflexivity.
Defined.

Lemma compare_documents_displayed_witness :
  analysis_result cat_happy ∧ analysis_result cat_sad
  ∧ ∃ r,
      compare_documents (λ _, "50.0") (λ _, "") cat_happy cat_sad
      = ([], Ok r)
      ∧ NoDup (added_content (diffs r))
      ∧ NoDup (removed_content (diffs r))
      ∧ (∀ s, s ∈ added_content (diffs r) →
           s ∉ removed_content (diffs r)).
Proof.
  split; [exact cat_happy_result|]. split; [exact cat_sad_result|].
  destruct (compare_documents_displayed (λ _, "50.0") (λ _, "")
              cat_happy cat_sad cat_happy_result cat_sad_result)
    as (r & Hr & Hadded & Hremoved & Hdisjoint & _).
  exists r. split; [exact Hr|]. split; [exact Hadded|].
  split; [exact Hremoved|exact Hdisjoint].
Defined.

Lemma compare_documents_no_difference_witness :
  analysis_result cat_happy ∧ analysis_result cat_sad
  ∧ ∃ r,
      compare_documents (λ _, "50.0") (λ _, "") cat_happy cat_sad
      = ([], Ok r)
      ∧ (total_added (diffs r) = 0
         ↔ sentences (content_of cat_sad) ⊆ sentences (content_of cat_happy)).
Proof.
  split; [exact cat_happy_result|]. split; [exact cat_sad_result|].
  destruct (compare_documents_no_difference (λ _, "50.0") (λ _, "")
              cat_happy cat_sad cat_happy_result cat_sad_result)
    as (r & Hr & Hadded & _).
  exists r. split; [exact Hr|exact Hadded].
Defined.

Lemma compare_documents_ill_typed_witness :
  analysis_result cat_happy ∧ analysis_result cat_sad
  ∧ fails_with (λ _, "50.0") (λ _, "no len")
      (<["tables" := PNone]> cat_happy) cat_sad (NoLen PNone)
  ∧ fails_with (λ _, "50.0") (λ _, "no len")
      cat_happy (<["page_count" := PStr "2"]> cat_sad)
      (BadOperands "-" (PStr "2") (PInt (page_count_of cat_happy))).
Proof.
  split; [exact cat_happy_result|]. split; [exact cat_sad_result|].
  destruct (compare_documents_ill_typed (λ _, "50.0") (λ _, "no len")
              cat_happy cat_sad cat_happy_result cat_sad_result)
    as (_ & Hpages & Htables).
  split.
  - destruct (Htables PNone) as [Hfirst _]; [left; reflexivity|].
    exact Hfirst.
  - destruct (Hpages (PStr "2")) as [_ Hsecond];
      [right; left; eexists; reflexivity|].
    exact Hsecond.
Defined.

(** A service result of two pages and one table with two cells. *)
Definition two_pages : AnalyzeResult.t :=
  {| AnalyzeResult.content := Some "Total due. Thank you!";
     AnalyzeResult.pages :=
       [{| DocumentPage.page_number := 1;
           DocumentPage.lines :=
             Some [{| DocumentLine.content := "Total" |};
                   {| DocumentLine.content := "due." |}];
           DocumentPage.width := Some (17 # 2)%Q;
           DocumentPage.height := Some 11%Q |};
        {| DocumentPage.page_number := 2;
           DocumentPage.lines := None;
           DocumentPage.width := None;
           DocumentPage.height := None |}];
     AnalyzeResult.tables :=
       Some [{| DocumentTable.row_count := 1;
                DocumentTable.column_count := 2;
                DocumentTable.cells :=
                  [{| DocumentTableCell.content := "Total";
                      DocumentTableCell.row_index := 0;
                      DocumentTableCell.column_index := 0;
                      DocumentTableCell.row_span := Some 1;
                      DocumentTableCell.column_span := Some 1 |};
                   {| DocumentTableCell.content := "12";
                      DocumentTableCell.row_index := 0;
                      DocumentTableCell.column_index := 1;
                      DocumentTableCell.row_span := None;
                      DocumentTableCell.column_span := None |}] |}] |}.

Lemma analyze_document_shape_witness :
  analyze_document (λ _, Ok two_pages) (λ _, "") [] "bill.pdf"
  = ([], Ok (analysed two_pages "bill.pdf"))
  ∧ Analysis.page_count (analysed two_pages "bill.pdf") = 2
  ∧ Page.page_number <$> Analysis.pages (analysed two_pages "bill.pdf")
    = [1; 2].
Proof.
  assert (analyze_document (λ _, Ok two_pages) (λ _, "") [] "bill.pdf"
          = ([], Ok (analysed two_pages "bill.pdf"))) as H by reflexivity.
  split; [exact H|].
  destruct (analyze_document_shape _ _ _ _ _ _ H)
    as (_ & _ & Hcount & result & Hread & Hnumbers & _).
  injection Hread as <-.
  split; [exact Hcount|exact Hnumbers].
Defined.

(** An environment without managed identity nor key, with clients that are
    the credentials they are built from. *)
Definition no_credentials : environment credential :=
  {| endpoint_setting := "https://example.test/";
     key_setting := Some "";
     default_credential := Raise (Exception "no identity");
     new_client := λ _ credential, Ok credential |}.

Lemma init_outcome_witness :
  managed_identity no_credentials = Raise (Exception "no identity")
  ∧ usable_key no_credentials = None
  ∧ init (λ _, "") no_credentials
    = ([(WARNING,
         "Failed to initialize with managed identity: no identity")],
       Raise (Exception no_authentication)).
Proof.
  assert (managed_identity no_credentials = Raise (Exception "no identity"))
    as H1 by reflexivity.
  assert (usable_key no_credentials = None) as H2 by reflexivity.
  split; [exact H1|]. split; [exact H2|].
  destruct (init_outcome (λ _, "") no_credentials) as (_ & Hfails & _).
  exact (Hfails (Exception "no identity") H1 H2).
Defined.
